(** * CGnet example notebooks: a shallow embedding of the authored code

    The two notebooks (the CGSchNet-embeddings tutorial and the
    variable-sized-data tutorial) are scripts over numpy, torch and the cgnet
    modelling library.  The code that the notebooks author themselves is
    embedded here as Rocq functions:

    - numpy array primitives on nested lists ([Np]);
    - the embedding codes ([Emb]);
    - the variable-length dataset construction ([Dataset]);
    - the selection of initial simulation frames ([Sim]);
    - the free-energy computation of [plot_ramachandran] ([Rama]);
    - the training loops ([Train]);
    - the sequence of external calls of each notebook, cell by cell ([Pipeline]).

    Calls into external libraries whose code is not part of the notebooks are
    interfaces (type classes); failures (Python exceptions) are [None]. *)

From Stdlib Require Import String.
From Stdlib Require Import List Arith ZArith Lia Bool QArith Reals Lra.
Import ListNotations.

Close Scope Q_scope.
Close Scope R_scope.
Open Scope nat_scope.

Set Implicit Arguments.

(** ** Exceptions as [option] *)

Definition bind_opt {A B : Type} (o : option A) (k : A -> option B) : option B :=
  match o with
  | Some a => k a
  | None => None
  end.

Declare Scope opt_scope.
Delimit Scope opt_scope with opt.
Notation "x <- e ;; k" := (bind_opt e (fun x => k))
  (at level 100, e at next level, right associativity) : opt_scope.

Fixpoint mapM {A B : Type} (f : A -> option B) (l : list A) : option (list B) :=
  match l with
  | [] => Some []
  | a :: t =>
      (b <- f a ;;
       bs <- mapM f t ;;
       Some (b :: bs))%opt
  end.

(** ** numpy primitives used by the notebooks *)

Module Np.

(** [np.tile(row, [reps0, reps1])] for a one-dimensional [row]. *)
Definition tile {A : Type} (row : list A) (reps0 reps1 : nat) : list (list A) :=
  repeat (concat (repeat row reps1)) reps0.

(** [a // b] on non-negative integers; [b = 0] raises ZeroDivisionError. *)
Definition floordiv (a b : nat) : option nat :=
  if b =? 0 then None else Some (a / b).

(** The loop behind [np.arange(start, stop, step)] for a positive step:
    emit [i] while [i < stop], advancing by [step]. *)
Fixpoint arange_loop (fuel i stop step : nat) : list nat :=
  match fuel with
  | O => []
  | S fuel' =>
      if i <? stop then i :: arange_loop fuel' (i + step) stop step else []
  end.

(** [np.arange(start, stop, step)]; a zero step raises.  With [step >= 1]
    the loop runs at most [stop - start] times. *)
Definition arange (start stop step : nat) : option (list nat) :=
  if step =? 0 then None else Some (arange_loop (stop - start) start stop step).

(** [a[i]] on the first axis; out of range raises IndexError. *)
Definition getitem {A : Type} (a : list A) (i : nat) : option A := nth_error a i.

(** [a[:k]] for a Python integer [k]: a negative [k] counts from the end. *)
Definition take_upto {A : Type} (k : Z) (a : list A) : list A :=
  if (0 <=? k)%Z then firstn (Z.to_nat k) a
  else firstn (length a - Z.to_nat (- k)) a.

(** Cut a flat list into consecutive pieces of [k] elements. *)
Fixpoint chunks_loop {A : Type} (fuel k : nat) (l : list A) : list (list A) :=
  match fuel with
  | O => []
  | S fuel' =>
      match l with
      | [] => []
      | _ => firstn k l :: chunks_loop fuel' k (skipn k l)
      end
  end.

Definition chunks {A : Type} (k : nat) (l : list A) : list (list A) :=
  chunks_loop (length l) k l.

(** [frame.reshape(-1, 5, 3)] of a two-dimensional [frame]: the flattened
    data is regrouped in rows of 3 and frames of 5 rows; a size that is not a
    multiple of 15 raises ValueError. *)
Definition reshape_m1_5_3 {A : Type} (frame : list (list A))
  : option (list (list (list A))) :=
  let flat := concat frame in
  if length flat mod 15 =? 0 then Some (chunks 5 (chunks 3 flat)) else None.

(** [a.shape == (n, b, d)] for a three-dimensional array. *)
Definition has_shape3 {A : Type} (n b d : nat) (a : list (list (list A))) : Prop :=
  length a = n /\
  Forall (fun fr => length fr = b /\ Forall (fun r => length r = d) fr) a.

(** [a.shape == (b, d)] for a two-dimensional array. *)
Definition has_shape2 {A : Type} (b d : nat) (a : list (list A)) : Prop :=
  length a = b /\ Forall (fun r => length r = d) a.

End Np.

(** ** Simulation set-up (both notebooks)

<<
initial_coords = np.concatenate([coords[i].reshape(-1, 5, 3)
                                 for i in np.arange(0, coords.shape[0],
                                                    coords.shape[0]//n_sims)],
                                                    axis=0)
sim_embeddings = torch.tensor(embeddings[:n_sims])
>> *)

Module Sim.

Definition initial_coords {A : Type} (coords : list (list (list A))) (n_sims : nat)
  : option (list (list (list A))) :=
  (step <- Np.floordiv (length coords) n_sims ;;
   idx <- Np.arange 0 (length coords) step ;;
   parts <- mapM (fun i => fr <- Np.getitem coords i ;; Np.reshape_m1_5_3 fr) idx ;;
   Some (concat parts))%opt.

Definition sim_embeddings (embeddings : list (list Z)) (n_sims : nat) : list (list Z) :=
  Np.take_upto (Z.of_nat n_sims) embeddings.

(** [ceil(a / b)] on naturals. *)
Definition ceil_div (a b : nat) : nat := (a + b - 1) / b.

End Sim.

(** ** Embeddings (both notebooks)

<<
embeddings = np.tile([6, 7, 6, 6, 7], [coords.shape[0], 1])
n_embeddings = 10
>> *)

Module Emb.

Definition bead_codes : list Z := [6; 7; 6; 6; 7]%Z.

Definition embeddings (n_frames : nat) : list (list Z) :=
  Np.tile bead_codes n_frames 1.

Definition n_embeddings : Z := 10.

(** A code the embedding table accepts as a bead: not the padding code 0
    and below the table size. *)
Definition valid_code (v : Z) : Prop := (0 < v < n_embeddings)%Z.

End Emb.

(** ** The global numpy random generator

    [np.random.seed] and [np.random.randint] are library code; the notebook
    relies on their documented contract only. *)

Class NumpyRandom (G : Type) : Type := {
  (** the generator state installed by [np.random.seed(s)] *)
  seed_state : Z -> G;
  (** [np.random.randint(low, high=high, size=size)] from a given state *)
  randint : Z -> Z -> nat -> G -> list Z * G
}.

(** The documented contract of [randint]: [size] integers from the half-open
    interval [[low, high)]. *)
Definition randint_contract (G : Type) `{NumpyRandom G} : Prop :=
  forall (lo hi : Z) (size : nat) (g : G),
    length (fst (randint lo hi size g)) = size /\
    ((lo < hi)%Z -> Forall (fun v => (lo <= v < hi)%Z) (fst (randint lo hi size g))).

Arguments randint_contract G {_}.

(** Code that reads and updates the global generator and may raise. *)
Definition NB (G A : Type) : Type := G -> option (A * G).

Definition nb_ret {G A : Type} (a : A) : NB G A := fun g => Some (a, g).

Definition nb_bind {G A B : Type} (m : NB G A) (k : A -> NB G B) : NB G B :=
  fun g => match m g with
           | Some (a, g') => k a g'
           | None => None
           end.

Definition nb_lift {G A : Type} (o : option A) : NB G A :=
  fun g => match o with
           | Some a => Some (a, g)
           | None => None
           end.

Declare Scope nb_scope.
Delimit Scope nb_scope with nb.
Notation "x <- e ;; k" := (nb_bind e (fun x => k))
  (at level 100, e at next level, right associativity) : nb_scope.
Notation "e ;;; k" := (nb_bind e (fun _ => k))
  (at level 100, right associativity) : nb_scope.

Definition np_random_seed {G : Type} `{NumpyRandom G} (s : Z) : NB G unit :=
  fun _ => Some (tt, seed_state s).

Definition np_random_randint {G : Type} `{NumpyRandom G} (low high : Z) (size : nat)
  : NB G (list Z) :=
  fun g => Some (randint low high size g).

(** A small linear congruential generator: one concrete generator that meets
    the contract. *)
Module Lcg.

Definition next (g : Z) : Z := ((1103515245 * g + 12345) mod 2147483648)%Z.

Fixpoint draws (lo hi : Z) (size : nat) (g : Z) : list Z * Z :=
  match size with
  | O => ([], g)
  | S size' =>
      let g' := next g in
      let (l, g'') := draws lo hi size' g' in
      ((lo + g' mod (hi - lo))%Z :: l, g'')
  end.

End Lcg.

#[export] Instance lcg_random : NumpyRandom Z := {|
  seed_state := fun s => (s mod 2147483648)%Z;
  randint := Lcg.draws
|}.

(** ** Variable-length dataset (variable-size notebook)

<<
np.random.seed(1133)
...
embeddings = np.tile([6, 7, 6, 6, 7], [coords.shape[0], 1])
...
random_lengths = np.random.randint(2, high=6, size=len(coords))

varied_coords = []
varied_forces = []
varied_embeddings = []

for num, length in enumerate(random_lengths):
    varied_coords.append(coords[num, :length, :])
    varied_forces.append(forces[num, :length, :])
    varied_embeddings.append(embeddings[num, :length])
>> *)

Module Dataset.

Record varied (A : Type) : Type := {
  varied_coords : list (list (list A));
  varied_forces : list (list (list A));
  varied_embeddings : list (list Z)
}.

Definition empty {A : Type} : varied A :=
  {| varied_coords := []; varied_forces := []; varied_embeddings := [] |}.

Definition enumerate {B : Type} (l : list B) : list (nat * B) :=
  combine (seq 0 (length l)) l.

(** One pass of the loop body: three indexed slices, three appends. *)
Definition truncate_example {A : Type}
    (coords forces : list (list (list A))) (embeddings : list (list Z))
    (acc : varied A) (it : nat * Z) : option (varied A) :=
  let (num, length) := it in
  (c <- Np.getitem coords num ;;
   f <- Np.getitem forces num ;;
   e <- Np.getitem embeddings num ;;
   Some {| varied_coords := varied_coords acc ++ [Np.take_upto length c];
           varied_forces := varied_forces acc ++ [Np.take_upto length f];
           varied_embeddings := varied_embeddings acc ++ [Np.take_upto length e] |})%opt.

Fixpoint for_each {S B : Type} (body : S -> B -> option S) (items : list B) (s : S)
  : option S :=
  match items with
  | [] => Some s
  | b :: rest =>
      match body s b with
      | Some s' => for_each body rest s'
      | None => None
      end
  end.

Definition truncate_all {A : Type}
    (coords forces : list (list (list A))) (embeddings : list (list Z))
    (random_lengths : list Z) : option (varied A) :=
  for_each (truncate_example coords forces embeddings) (enumerate random_lengths) empty.

(** The examples the loop appends for a list of enumerated lengths. *)
Definition appended {A : Type}
    (coords forces : list (list (list A))) (embeddings : list (list Z))
    (acc : varied A) (items : list (nat * Z)) : varied A :=
  {| varied_coords :=
       varied_coords acc ++
       map (fun it => Np.take_upto (snd it) (nth (fst it) coords [])) items;
     varied_forces :=
       varied_forces acc ++
       map (fun it => Np.take_upto (snd it) (nth (fst it) forces [])) items;
     varied_embeddings :=
       varied_embeddings acc ++
       map (fun it => Np.take_upto (snd it) (nth (fst it) embeddings [])) items |}.

(** The notebook from its first cell to the end of the loop, started in an
    arbitrary state [g] of the global generator; [coords] and [forces] are
    the arrays read by [np.load]. *)
Definition variable_dataset {G A : Type} `{NumpyRandom G}
    (coords forces : list (list (list A))) : NB G (list Z * varied A) :=
  (np_random_seed 1133 ;;;
   let embeddings := Emb.embeddings (length coords) in
   random_lengths <- np_random_randint 2 6 (length coords) ;;
   v <- nb_lift (truncate_all coords forces embeddings random_lengths) ;;
   nb_ret (random_lengths, v))%nb.

End Dataset.

(** ** Free energies in [plot_ramachandran] (both notebooks)

<<
counts, _, _ = np.histogram2d(psi.reshape(-1), phi.reshape(-1), bins=bins, range=edges)
populations = counts / np.sum(counts)

# compute energies for only non-zero entries
# 1/beta is approximately 0.6 kcal/mol at 300 K
energies = -0.6*np.log(populations,
                       out=np.zeros_like(populations),
                       where=(populations > 0))

# make the lowest energy slightly above zero
energies = np.where(energies,
                    energies-np.min(energies[np.nonzero(energies)]) + 1e-6,
                    0)

# mask the zero values from the colormap
zvals_masked = np.ma.masked_where(energies == 0, energies)
>>

    The histogram is the input: a grid of bin counts.  Floating-point numbers
    are idealised as real numbers. *)

Module Rama.

Local Open Scope R_scope.

Definition grid (A : Type) : Type := list (list A).

Definition np_sum (counts : grid nat) : nat := list_sum (map (@list_sum) counts).

Definition populations (counts : grid nat) : grid R :=
  let total := INR (np_sum counts) in
  map (map (fun c => INR c / total)) counts.

(** [np.log] on one element.  At [p <= 0] numpy yields [-inf] or [nan] and
    signals a floating-point error: no real value. *)
Definition np_log (p : R) : option R :=
  if Rlt_dec 0 p then Some (ln p) else None.

(** [np.log(p, out=out, where=cond)] on one element: the logarithm is taken
    only where [cond] holds, elsewhere [out] is kept. *)
Definition np_log_where (p out : R) (cond : bool) : option R :=
  if cond then np_log p else Some out.

(** [populations > 0] on one element. *)
Definition positive (p : R) : bool := if Rlt_dec 0 p then true else false.

Definition raw_energy (p : R) : option R :=
  (l <- np_log_where p 0 (positive p) ;; Some (-0.6 * l))%opt.

Definition raw_energies (pops : grid R) : option (grid R) :=
  mapM (mapM raw_energy) pops.


(** Truth value of a float: everything but zero. *)
Definition truthy (x : R) : bool := if Req_dec_T x 0 then false else true.

(** [energies[np.nonzero(energies)]] *)
Definition nonzero (e : grid R) : list R := filter truthy (concat e).

(** [np.min]; an empty array raises ValueError. *)
Definition np_min (l : list R) : option R :=
  match l with
  | [] => None
  | x :: t => Some (fold_left Rmin t x)
  end.

(** The [np.where] line: its arguments, among them the minimum, are
    evaluated before the selection. *)
Definition shifted_energies (e : grid R) : option (grid R) :=
  (m <- np_min (nonzero e) ;;
   Some (map (map (fun x => if truthy x then x - m + 1e-6 else 0)) e))%opt.

Definition energies (counts : grid nat) : option (grid R) :=
  (e <- raw_energies (populations counts) ;; shifted_energies e)%opt.

(** [energies == 0], the mask of [np.ma.masked_where]. *)
Definition mask (E : grid R) : grid bool := map (map (fun x => negb (truthy x))) E.

(** A populated bin. *)
Definition nz (c : nat) : bool := negb (c =? 0)%nat.

(** Number of populated bins. *)
Definition populated (counts : grid nat) : nat :=
  List.length (filter nz (concat counts)).

(** A [bins] by [bins] histogram whose samples all fall into bin [(i, j)]. *)
Definition single_bin (bins i j samples : nat) : grid nat :=
  map (fun a =>
         map (fun b => if ((a =? i) && (b =? j))%nat then samples else 0%nat)
             (seq 0 bins))
      (seq 0 bins).

(** Closed form of one raw energy. *)
Definition raw_value (p : R) : R := if Rlt_dec 0 p then -0.6 * ln p else 0.

(** Raw energy of a bin holding [c] of [total] samples. *)
Definition bin_energy (total c : nat) : R := raw_value (INR c / INR total).

(** Free energy of a bin holding [c] of [total] samples, relative to the
    level [m]: what the two energy lines compute for one bin. *)
Definition free_energy (total : nat) (m : R) (c : nat) : R :=
  if (c =? 0)%nat then 0 else -0.6 * ln (INR c / INR total) - m + 1e-6.

End Rama.

(** ** The authored training loop (CGSchNet-embeddings notebook)

<<
ala2_net = CGnet(layers, ForceLoss(), feature=feature_combiner, priors=priors).to(device)
...
for epoch in range(1, num_epochs+1):
    train_loss = 0.00
    test_loss = 0.00
    n = 0
    for num, batch in enumerate(trainloader):
        optimizer.zero_grad()
        coord, force, embedding_property = batch
        energy, pred_force = ala2_net.forward(coord,
                                embedding_property=embedding_property)
        batch_loss = ala2_net.criterion(pred_force, force)
        batch_loss.backward()
        optimizer.step()

        # perform L2 lipschitz check and projection
        lipschitz_projection(ala2_net, strength=lipschitz_strength)
        if verbose:
            if (num+1) % batch_freq == 0:
                print(...)
        train_loss += batch_loss.detach().cpu()
        n += 1

    train_loss /= n
    if verbose:
        if epoch % epoch_freq == 0:
            print(...)
    epochal_train_losses.append(train_loss)
    scheduler.step()
>> *)

Module Train.

(** The torch and cgnet operations the loop calls.  Gradients are kept as
    the list of losses backpropagated since the last [zero_grad].  The laws
    say that a model keeps the criterion it was built with: neither an
    optimizer step nor the projection replaces it. *)
Class Library : Type := {
  Tensor : Type;
  Loss : Type;
  Arch : Type;
  Model : Type;
  Optimizer : Type;
  (** [CGnet(layers, criterion, feature=..., priors=...)] *)
  CGnet : Arch -> (Tensor -> Tensor -> Loss) -> Model;
  (** [ForceLoss()] *)
  ForceLoss : Tensor -> Tensor -> Loss;
  (** [model.criterion] *)
  criterion : Model -> Tensor -> Tensor -> Loss;
  (** [model.forward(coord, embedding_property=...)]: energy and force *)
  forward : Model -> Tensor -> Tensor -> Tensor * Tensor;
  (** [optimizer.step()] on the accumulated gradients *)
  optimizer_step : Optimizer -> Model -> list Loss -> Optimizer * Model;
  (** [lipschitz_projection(model, strength=...)] *)
  lipschitz_projection : Model -> Q -> Model;
  (** [scheduler.step()] of the learning-rate schedule *)
  scheduler_step : Optimizer -> Optimizer;
  criterion_CGnet : forall a c, criterion (CGnet a c) = c;
  criterion_step : forall o m g, criterion (snd (optimizer_step o m g)) = criterion m;
  criterion_lipschitz : forall m s, criterion (lipschitz_projection m s) = criterion m
}.

Section Loop.

Context {L : Library}.

(** [coord, force, embedding_property = batch] *)
Definition Batch : Type := (Tensor * Tensor * Tensor)%type.

Inductive line : Type :=
| batch_line (num : nat) (batch_loss : Loss)
| epoch_line (epoch : nat) (losses : list Loss) (n : nat).

Record state : Type := {
  net : Model;
  optimizer : Optimizer;
  grads : list Loss;
  stdout : list line;
  (** each entry is a mean: the summed batch losses and their number *)
  epochal_train_losses : list (list Loss * nat)
}.

(** Hyperparameters and printout settings of the notebook. *)
Definition lipschitz_strength : Q := 4 # 1.
Definition num_epochs : nat := 5.
Definition batch_freq : nat := 500.
Definition epoch_freq : nat := 1.

(** Local variables of one epoch next to the state. *)
Record locals : Type := {
  st : state;
  train_loss : list Loss;
  n : nat
}.

Definition train_batch (strength : Q) (verbose : bool) (v : locals) (it : nat * Batch)
  : locals :=
  let '(num, (coord, force, embedding_property)) := it in
  let s := st v in
  let zeroed : list Loss := [] in
  let (energy, pred_force) := forward (net s) coord embedding_property in
  let batch_loss := criterion (net s) pred_force force in
  let accumulated := zeroed ++ [batch_loss] in
  let (optimizer', stepped) := optimizer_step (optimizer s) (net s) accumulated in
  let projected := lipschitz_projection stepped strength in
  let out :=
    if verbose && ((num + 1) mod batch_freq =? 0)
    then stdout s ++ [batch_line (num + 1) batch_loss]
    else stdout s in
  {| st := {| net := projected; optimizer := optimizer'; grads := accumulated;
              stdout := out; epochal_train_losses := epochal_train_losses s |};
     train_loss := train_loss v ++ [batch_loss];
     n := n v + 1 |}.

Definition train_batches (strength : Q) (verbose : bool) (s : state)
    (batches : list Batch) : locals :=
  fold_left (train_batch strength verbose) (Dataset.enumerate batches)
            {| st := s; train_loss := []; n := 0 |}.

(** One epoch; [train_loss /= n] raises ZeroDivisionError when the loader
    yields no batch. *)
Definition train_epoch (strength : Q) (verbose : bool)
    (trainloader : nat -> list Batch) (s : state) (epoch : nat) : option state :=
  let v := train_batches strength verbose s (trainloader epoch) in
  if n v =? 0 then None
  else
    let s' := st v in
    let out :=
      if verbose && (epoch mod epoch_freq =? 0)
      then stdout s' ++ [epoch_line epoch (train_loss v) (n v)]
      else stdout s' in
    Some {| net := net s';
            optimizer := scheduler_step (optimizer s');
            grads := grads s';
            stdout := out;
            epochal_train_losses :=
              epochal_train_losses s' ++ [(train_loss v, n v)] |}.

(** The whole loop; the loader is reshuffled for every epoch, so its
    batches depend on the epoch. *)
Definition train (strength : Q) (verbose : bool) (epochs : nat)
    (trainloader : nat -> list Batch) (s : state) : option state :=
  Dataset.for_each (train_epoch strength verbose trainloader) (seq 1 epochs) s.

(** The state in which the notebook enters the loop. *)
Definition initial_state (arch : Arch) (opt : Optimizer) : state :=
  {| net := CGnet arch ForceLoss; optimizer := opt; grads := [];
     stdout := []; epochal_train_losses := [] |}.

(** Force matching as the specification states it: one optimizer step on
    the force loss of the batch, then the projection. *)
Definition force_matching_step (strength : Q) (mo : Model * Optimizer) (b : Batch)
  : Model * Optimizer :=
  let '(coord, force, embedding_property) := b in
  let pred_force := snd (forward (fst mo) coord embedding_property) in
  let (o', m') := optimizer_step (snd mo) (fst mo) [ForceLoss pred_force force] in
  (lipschitz_projection m' strength, o').

Definition force_matching_epoch (strength : Q) (trainloader : nat -> list Batch)
    (mo : Model * Optimizer) (epoch : nat) : Model * Optimizer :=
  let (m, o) := fold_left (force_matching_step strength) (trainloader epoch) mo in
  (m, scheduler_step o).

Definition force_matching (strength : Q) (epochs : nat)
    (trainloader : nat -> list Batch) (mo : Model * Optimizer) : Model * Optimizer :=
  fold_left (force_matching_epoch strength trainloader) (seq 1 epochs) mo.

End Loop.

End Train.

(** ** The notebooks as sequences of external calls

    Each code cell contributes the calls it makes into numpy, torch, cgnet,
    mdtraj and matplotlib, in order, grouped in segments by the stage of the
    tutorial they belong to; the arithmetic, indexing and slicing the notebooks
    write themselves are not calls and are embedded in the other modules.
    Cells run one after the other; a cell that raises ends the run.  Calls
    into cgnet, torch, mdtraj and matplotlib are taken to return: the failures
    followed here are those of the notebooks' own expressions (a division by
    zero, a zero step of [np.arange], [np.min] of an empty selection). *)

Module Pipeline.

Local Open Scope string_scope.
Local Open Scope list_scope.

Inductive phase : Type :=
| Setup                 (* imports, constants, function definitions *)
| DataLoad
| DatasetConstruction
| ModelConstruction
| Training
| Simulation
| Plotting.


Inductive call : Type :=
| call_np (fn : string)
| call_np_load (path : string)
| call_torch (fn : string)
| call_torch_save (path : string)
| call_cgnet (fn : string)
| call_lipschitz_projection (strength : Q)
| call_dataset_loss (regularization : option Q)
| call_md (fn : string)
| call_plt (fn : string)
| call_print.

Definition segment : Type := (phase * list call)%type.

(** The variables of a run: the number of frames in the data files, the
    notebook variables that steer control flow or reach a call, and the bin
    counts [np.histogram2d] returns in [plot_ramachandran] for the dihedrals
    of the data ([ref_counts]) and of the simulation ([sim_counts]). *)
Record run : Type := {
  n_frames : nat;
  num_epochs : nat;
  lipschitz_strength : Q;
  verbose : bool;
  save_model : bool;
  directory : string;
  n_sims : nat;
  ref_counts : Rama.grid nat;
  sim_counts : Rama.grid nat
}.

Record outcome : Type := {
  segs : list segment;
  raised : bool
}.

Definition cell : Type := run -> outcome.

Definition ok (l : list segment) : outcome := {| segs := l; raised := false |}.
Definition raise (l : list segment) : outcome := {| segs := l; raised := true |}.

Fixpoint run_cells (cells : list cell) (r : run) : outcome :=
  match cells with
  | [] => ok []
  | c :: rest =>
      let o := c r in
      if raised o then o
      else
        let o' := run_cells rest r in
        {| segs := segs o ++ segs o'; raised := raised o' |}
  end.

Definition batch_size : nat := 512.

(** Batches a [DataLoader] yields per epoch (no [drop_last]). *)
Definition n_batches (r : run) : nat := Sim.ceil_div (n_frames r) batch_size.

(** *** Cells shared by both notebooks *)

Definition layers_calls : list call :=
  [call_cgnet "LinearLayer"] ++
  repeat (call_cgnet "LinearLayer") (5 - 1) ++
  [call_cgnet "LinearLayer"].

Definition loss_curve_calls : list call :=
  [call_plt "figure"; call_np "arange"; call_plt "plot"; call_plt "legend";
   call_plt "xlabel"].

(** Body of the simulation cell after the arrays are in place;
    [coords.shape[0]//n_sims] and [np.arange] may raise. *)
Definition simulation_cell_tail (r : run) (before : list segment) : outcome :=
  match Np.floordiv (n_frames r) (n_sims r) with
  | None => raise (before ++ [(Simulation, [])])
  | Some step =>
      match Np.arange 0 (n_frames r) step with
      | None => raise (before ++ [(Simulation, [call_np "arange"])])
      | Some idx =>
          ok (before ++
              [(Simulation,
                [call_np "arange"] ++
                map (fun _ => call_np "reshape") idx ++
                [call_np "concatenate"; call_torch "tensor"; call_torch "to";
                 call_torch "tensor"; call_torch "to"; call_print;
                 call_cgnet "eval"; call_cgnet "Simulation"; call_cgnet "simulate"])])
      end
  end.

(** [plot_ramachandran] up to the energies: the calls until [np.min], which
    raises ValueError on an empty selection. *)
Definition plot_ramachandran_energy_calls : list call :=
  [call_np "array"; call_np "histogram2d"; call_np "sum"; call_np "zeros_like";
   call_np "log"; call_np "nonzero"; call_np "min"].

(** The rest of [plot_ramachandran]. *)
Definition plot_ramachandran_image_calls : list call :=
  [call_np "where"; call_np "ma.masked_where"; call_plt "set_bad";
   call_plt "imshow"; call_plt "gca"; call_plt "invert_yaxis"; call_plt "xticks";
   call_plt "yticks"; call_plt "xlabel"; call_plt "ylabel"; call_plt "colorbar";
   call_plt "set_title"].

Definition plot_ramachandran_calls : list call :=
  plot_ramachandran_energy_calls ++ plot_ramachandran_image_calls.

(** One call of [plot_ramachandran] on samples whose histogram is [counts]:
    the calls it makes and whether it raised. *)
Definition plot_ramachandran (counts : Rama.grid nat) : list call * bool :=
  match Rama.energies counts with
  | None => (plot_ramachandran_energy_calls, true)
  | Some _ => (plot_ramachandran_calls, false)
  end.

Definition scatter_panel_calls : list call :=
  [call_plt "subplot"; call_plt "get_cmap"; call_plt "scatter"; call_plt "xlabel";
   call_plt "ylabel"; call_plt "xlim"; call_plt "ylim"; call_plt "title";
   call_plt "colorbar"; call_plt "set_title"].

Definition scatter_cell : cell := fun _ =>
  ok [(Plotting,
       [call_plt "subplots"] ++ scatter_panel_calls ++ scatter_panel_calls ++
       [call_plt "tight_layout"])].

(** The last cell: [plot_ramachandran(phi, psi)] on the data, then
    [plot_ramachandran(sim_phi, sim_psi)] on the simulation; an exception in
    the first call ends the cell before the second. *)
Definition ramachandran_cell : cell := fun r =>
  let (reference, e) := plot_ramachandran (ref_counts r) in
  if e then raise [(Plotting, [call_plt "subplots"; call_plt "subplot"] ++ reference)]
  else
    let (simulated, e') := plot_ramachandran (sim_counts r) in
    if e'
    then raise [(Plotting,
                 [call_plt "subplots"; call_plt "subplot"] ++ reference ++
                 [call_plt "title"; call_plt "subplot"] ++ simulated)]
    else ok [(Plotting,
              [call_plt "subplots"; call_plt "subplot"] ++ reference ++
              [call_plt "title"; call_plt "subplot"] ++ simulated ++
              [call_plt "title"; call_plt "tight_layout"])].

(** [np.min] is applied to the potentials the library returns for the frames
    of the data and of the simulation. *)
Definition potential_calls : list call :=
  [call_torch "tensor"; call_torch "tensor"; call_cgnet "forward";
   call_torch "detach.numpy"; call_np "min";
   call_np "concatenate"; call_np "min"].

(** *** CGSchNet-embeddings notebook *)














(** One pass of the authored batch loop.  Of
    [train_loss += batch_loss.detach().cpu()] the call is [detach().cpu()];
    the addition and [n += 1] are statements of the notebook, followed in
    [Train.train_batch]. *)
Definition emb_batch_calls (r : run) (num : nat) : list call :=
  [call_torch "zero_grad"; call_cgnet "forward"; call_cgnet "criterion";
   call_torch "backward"; call_torch "step";
   call_lipschitz_projection (lipschitz_strength r)] ++
  (if verbose r && ((num + 1) mod Train.batch_freq =? 0)%nat then [call_print] else []) ++
  [call_torch "detach.cpu"].

Definition emb_epoch_batches (r : run) : list call :=
  flat_map (emb_batch_calls r) (seq 0 (n_batches r)).

(** The calls that end an epoch.  [train_loss /= n] and the [append] before
    them are statements of the notebook, followed in [Train.train_epoch]; the
    division by zero is raised in [emb_epochs]. *)
Definition emb_epoch_end (r : run) (epoch : nat) : list call :=
  (if verbose r && (epoch mod Train.epoch_freq =? 0)%nat then [call_print] else []) ++
  [call_torch "scheduler.step"].

(** The epochs still to run; [train_loss /= n] raises when an epoch saw no
    batch.  Returns the calls and whether the loop raised. *)
Fixpoint emb_epochs (r : run) (epochs : list nat) : list call * bool :=
  match epochs with
  | [] => ([], false)
  | epoch :: rest =>
      if (n_batches r =? 0)%nat then (emb_epoch_batches r, true)
      else
        let (cs, e) := emb_epochs r rest in
        (emb_epoch_batches r ++ emb_epoch_end r epoch ++ cs, e)
  end.

Definition emb_train : cell := fun r =>
  let (cs, e) := emb_epochs r (seq 1 (num_epochs r)) in
  if e then raise [(Training, cs)]
  else
    ok [(Training,
         cs ++ (if save_model r
                then [call_torch_save (directory r ++ "/ala2_cgschnet.pt")%string]
                else []))].







(** The notebook's own values of the run variables, on data with the given
    number of frames and histograms. *)
Definition emb_defaults (frames : nat) (reference simulated : Rama.grid nat) : run :=
  {| n_frames := frames; num_epochs := 5; lipschitz_strength := 4 # 1;
     verbose := true; save_model := false; directory := "."; n_sims := 1000;
     ref_counts := reference; sim_counts := simulated |}.

(** *** Variable-sized-data notebook *)

Definition var_imports : cell := fun _ =>
  ok [(Setup, [call_torch "device"; call_np "random.seed"])].

Definition var_load_calls : list call :=
  [call_np_load "./data/ala2_coordinates.npy"; call_np_load "./data/ala2_forces.npy";
   call_np "tile"].

Definition var_load : cell := fun _ =>
  ok [(DataLoad, var_load_calls ++ [call_print; call_print; call_print])].

(** The lengths are drawn in one call; the loop that follows slices and
    appends, without a call into a library. *)
Definition var_truncate : cell := fun _ =>
  ok [(DatasetConstruction, [call_np "random.randint"])].

Definition var_dataset : cell := fun _ =>
  ok [(DatasetConstruction, [call_cgnet "MultiMoleculeDataset"; call_print])].

Definition six_prints : list call :=
  [call_print; call_print; call_print; call_print; call_print; call_print].

Definition var_inspect : cell := fun _ =>
  ok [(DatasetConstruction,
       flat_map (fun _ : nat => call_cgnet "__getitem__" :: six_prints) [0; 1; 2]%nat)].

(** The first batch of a demonstration loader is printed, then [break]. *)
Definition var_padding : cell := fun r =>
  ok [(DatasetConstruction,
       [call_torch "DataLoader"] ++
       (if (n_frames r =? 0)%nat then []
        else call_cgnet "multi_molecule_collate" :: six_prints))].

Definition var_hyperparameters : cell := fun _ => ok [(Setup, [call_torch "Tanh"])].

Definition var_embedding_layer : cell := fun _ =>
  ok [(ModelConstruction, [call_cgnet "CGBeadEmbedding"])].

Definition var_schnet_feature : cell := fun _ =>
  ok [(ModelConstruction, [call_cgnet "GaussianRBF"; call_cgnet "SchnetFeature"])].

Definition var_net : cell := fun _ =>
  ok [(ModelConstruction,
       layers_calls ++
       [call_cgnet "ForceLoss"; call_cgnet "CGnet"; call_torch "to"; call_print])].

Definition var_training_tools : cell := fun _ =>
  ok [(Training,
       [call_torch "DataLoader"; call_cgnet "parameters"; call_torch "Adam";
        call_torch "MultiStepLR"])].

(** [dataset_loss(variable_model, loader, optimizer, verbose_interval=batch_freq)]
    and [scheduler.step()]; the batch loop runs inside the library call, which
    is handed the model, the loader, the optimizer and the printing interval,
    and no projection. *)
Definition var_epoch_calls (r : run) (epoch : nat) : list call :=
  [call_dataset_loss None; call_torch "scheduler.step"].

Definition var_train : cell := fun r =>
  ok [(Training,
       flat_map (var_epoch_calls r) (seq 1 (num_epochs r)) ++
       (if save_model r
        then [call_torch_save (directory r ++ "/variable_model.pt")%string]
        else []))].

Definition var_loss_curve : cell := fun _ =>
  ok [(Plotting, loss_curve_calls ++ [call_plt "ylabel"; call_plt "show"])].

Definition var_sim_settings : cell := fun _ => ok [(Setup, [])].

Definition var_simulation : cell := fun r =>
  simulation_cell_tail r [(DataLoad, var_load_calls)].

Definition var_analysis : cell := fun _ =>
  ok [(Plotting,
       [call_cgnet "CGMolecule"; call_cgnet "make_trajectory"; call_np "concatenate";
        call_cgnet "make_trajectory"; call_np "vstack"; call_md "compute_dihedrals";
        call_np "vstack"; call_md "compute_dihedrals"] ++ potential_calls)].

Definition var_def_plot : cell := fun _ => ok [(Setup, [])].

Definition var_notebook : list cell :=
  [var_imports; var_load; var_truncate; var_dataset; var_inspect; var_padding;
   var_hyperparameters; var_embedding_layer; var_schnet_feature; var_net;
   var_training_tools; var_train; var_loss_curve; var_sim_settings; var_simulation;
   var_analysis; scatter_cell; var_def_plot; ramachandran_cell].

Definition var_defaults (frames : nat) (reference simulated : Rama.grid nat) : run :=
  {| n_frames := frames; num_epochs := 15; lipschitz_strength := 4 # 1;
     verbose := true; save_model := false; directory := "."; n_sims := 100;
     ref_counts := reference; sim_counts := simulated |}.

(** *** Observations on a run *)

Definition trace (o : outcome) : list call := flat_map snd (segs o).








(** Training calls that leave the batch loop to the library. *)
Definition delegated_of (c : call) : nat :=
  match c with
  | call_dataset_loss _ => 1
  | _ => 0
  end%nat.

Definition delegated_epochs (tr : list call) : nat := list_sum (map delegated_of tr).

(** Authored projections with a given strength. *)
Definition projection_of (strength : Q) (c : call) : nat :=
  match c with
  | call_lipschitz_projection s => if Qeq_bool s strength then 1 else 0
  | _ => 0
  end%nat.

Definition projections (strength : Q) (tr : list call) : nat :=
  list_sum (map (projection_of strength) tr).

(** The projection a delegated loop is asked to apply. *)
Definition requested (strength : Q) (regularization : option Q) : bool :=
  match regularization with
  | Some s => Qeq_bool s strength
  | None => false
  end.

(** Every authored optimizer step is directly followed by a projection of
    the given strength, and every delegated loop is handed one. *)
Fixpoint projected_after_each_step (strength : Q) (tr : list call) : bool :=
  match tr with
  | [] => true
  | call_torch fn :: rest =>
      (if String.eqb fn "step"
       then match rest with
            | call_lipschitz_projection s :: _ => Qeq_bool s strength
            | _ => false
            end
       else true) && projected_after_each_step strength rest
  | call_dataset_loss regularization :: rest =>
      requested strength regularization && projected_after_each_step strength rest
  | _ :: rest => projected_after_each_step strength rest
  end.

(** A stretch of calls in which every optimizer step is followed by its
    projection and which does not end on a step. *)
Definition closed_block (strength : Q) (l : list call) : Prop :=
  projected_after_each_step strength (l ++ [call_print]) = true.

(** *** The calls a data-dependent cell can make *)



Definition var_train_vocabulary (r : run) : list call :=
  [call_dataset_loss None; call_torch "scheduler.step"] ++
  (if save_model r
   then [call_torch_save (directory r ++ "/variable_model.pt")%string] else []).

Definition simulation_vocabulary : list call :=
  [call_np "arange"; call_np "reshape"; call_np "concatenate"; call_torch "tensor";
   call_torch "to"; call_print; call_cgnet "eval"; call_cgnet "Simulation";
   call_cgnet "simulate"].

Definition var_padding_vocabulary : list call :=
  [call_torch "DataLoader"; call_cgnet "multi_molecule_collate"; call_print].

Definition ramachandran_vocabulary : list call :=
  [call_plt "subplots"; call_plt "subplot"; call_plt "title"; call_plt "tight_layout"] ++
  plot_ramachandran_calls.


(** *** Policies on calls *)


(** A call that neither is a projection nor asks a delegated loop for one. *)
Definition no_projection (c : call) : Prop :=
  match c with
  | call_lipschitz_projection _ => False
  | call_dataset_loss (Some _) => False
  | _ => True
  end.

End Pipeline.

(** ** A one-weight model

    A concrete instance of the training interface: tensors, losses and the
    weight are integers, and the model carries its criterion. *)

Module Toy.

Definition model : Type := (Z * (Z -> Z -> Z))%type.

Definition squared_error (pred force : Z) : Z := ((pred - force) * (pred - force))%Z.

Definition step (lr : Z) (m : model) (g : list Z) : Z * model :=
  (lr, ((fst m - lr * fold_right Z.add 0 g)%Z, snd m)).

Definition clip (m : model) (strength : Q) : model :=
  (Z.min (fst m) (Qnum strength / Z.pos (Qden strength)), snd m).

#[export] Instance library : Train.Library := {|
  Train.Tensor := Z;
  Train.Loss := Z;
  Train.Arch := Z;
  Train.Model := model;
  Train.Optimizer := Z;
  Train.CGnet := fun a c => (a, c);
  Train.ForceLoss := squared_error;
  Train.criterion := fun m => snd m;
  Train.forward := fun m coord emb => ((fst m * coord)%Z, (- fst m * coord + emb)%Z);
  Train.optimizer_step := step;
  Train.lipschitz_projection := clip;
  Train.scheduler_step := fun lr => lr;
  Train.criterion_CGnet := fun _ _ => eq_refl;
  Train.criterion_step := fun _ _ _ => eq_refl;
  Train.criterion_lipschitz := fun _ _ => eq_refl
|}.

(** A loader with two batches in every epoch. *)
Definition loader (epoch : nat) : list (Z * Z * Z) :=
  [(1, 2, 0); (3, 1, Z.of_nat epoch)]%Z.

End Toy.

(** ** Further authored expressions *)

Module Analysis.

Local Open Scope R_scope.

(** [pot = pot - np.min(pot)] and [sim_pot = sim_pot - np.min(sim_pot)], on
    the values of the array. *)
Definition subtract_min (pot : list R) : option (list R) :=
  (m <- Rama.np_min pot ;; Some (map (fun x => x - m) pot))%opt.

(** Sum over all bins of a grid. *)
Definition grid_sum (g : Rama.grid R) : R := fold_right Rplus 0 (concat g).

(** The histogram of [k] copies of the same samples. *)
Definition scale_counts (k : nat) (counts : Rama.grid nat) : Rama.grid nat :=
  map (map (Nat.mul k)) counts.

End Analysis.

(** What a training state holds besides the printed lines. *)
Definition quiet {L : Train.Library} (s : Train.state)
  : Train.Model * Train.Optimizer * list Train.Loss * list (list Train.Loss * nat) :=
  (Train.net s, Train.optimizer s, Train.grads s, Train.epochal_train_losses s).

(** The authored [optimizer.step()] calls of a call sequence. *)
Definition authored_steps (tr : list Pipeline.call) : nat :=
  list_sum (map (fun c => match c with
                          | Pipeline.call_torch fn =>
                              if String.eqb fn "step" then 1 else 0
                          | _ => 0
                          end) tr).

(** * Properties *)

Section ArangeFacts.

Lemma arange_loop_length fuel : forall i stop step,
  0 < step -> stop - i <= fuel ->
  length (Np.arange_loop fuel i stop step) = Sim.ceil_div (stop - i) step.
Proof.
  unfold Sim.ceil_div.
  induction fuel as [|fuel IH]; intros i stop step Hs Hf; simpl.
  - replace (stop - i) with 0 by lia. simpl.
    symmetry. apply Nat.div_small. lia.
  - destruct (Nat.ltb_spec i stop) as [Hlt|Hge]; simpl.
    + rewrite IH by lia.
      destruct (Nat.le_gt_cases step (stop - i)) as [Hle|Hgt].
      * replace (stop - i + step - 1) with ((stop - (i + step) + step - 1) + 1 * step) by lia.
        rewrite Nat.div_add by lia. lia.
      * replace (stop - (i + step)) with 0 by lia.
        rewrite (Nat.div_small (0 + step - 1)) by lia.
        assert (H1 : (stop - i + step - 1) / step = 1).
        { replace (stop - i + step - 1) with ((stop - i - 1) + 1 * step) by lia.
          rewrite Nat.div_add by lia. rewrite Nat.div_small by lia. reflexivity. }
        lia.
    + replace (stop - i) with 0 by lia.
      symmetry. apply Nat.div_small. lia.
Qed.

Lemma arange_loop_bound fuel : forall i stop step,
  Forall (fun k => k < stop) (Np.arange_loop fuel i stop step).
Proof.
  induction fuel as [|fuel IH]; intros i stop step; simpl; [constructor|].
  destruct (Nat.ltb_spec i stop); constructor; auto.
Qed.

End ArangeFacts.

(** ** Option-valued maps *)

Section MapM.

Context {A B : Type}.

Lemma mapM_pointwise (f : A -> option B) (g : A -> B) (l : list A) :
  Forall (fun a => f a = Some (g a)) l -> mapM f l = Some (map g l).
Proof.
  induction 1 as [|a t Ha _ IH]; simpl; [reflexivity|].
  rewrite Ha; simpl. rewrite IH; reflexivity.
Qed.


End MapM.

(** ** Reshaping one frame *)

Section Reshape.

Lemma chunks_loop_concat {A : Type} (k : nat) (rows : list (list A)) : forall fuel,
  0 < k -> Forall (fun r => length r = k) rows -> length rows <= fuel ->
  Np.chunks_loop fuel k (concat rows) = rows.
Proof.
  induction rows as [|r t IH]; intros fuel Hk Hrows Hfuel.
  - destruct fuel; reflexivity.
  - inversion Hrows as [|? ? Hr Ht]; subst.
    destruct fuel as [|fuel]; [simpl in Hfuel; lia|].
    simpl in Hfuel. simpl concat. simpl Np.chunks_loop.
    destruct r as [|x r']; [simpl in Hk; lia|].
    change ((x :: r') ++ concat t) with (x :: (r' ++ concat t)).
    cbv iota.
    change (x :: (r' ++ concat t)) with ((x :: r') ++ concat t).
    rewrite firstn_app, skipn_app.
    rewrite Nat.sub_diag, firstn_all, skipn_all. simpl firstn. simpl skipn.
    rewrite app_nil_r. change ([] ++ concat t) with (concat t).
    f_equal. apply IH; auto; lia.
Qed.

Lemma length_concat_rows {A : Type} (k : nat) (rows : list (list A)) :
  Forall (fun r => length r = k) rows -> length (concat rows) = length rows * k.
Proof.
  induction 1 as [|r t Hr _ IH]; simpl; [reflexivity|].
  rewrite length_app, IH, Hr. lia.
Qed.

Lemma reshape_single_frame {A : Type} (fr : list (list A)) :
  Np.has_shape2 5 3 fr -> Np.reshape_m1_5_3 fr = Some [fr].
Proof.
  intros [Hlen Hrows]. unfold Np.reshape_m1_5_3, Np.chunks.
  assert (Hflat : length (concat fr) = 15)
    by (rewrite (length_concat_rows Hrows), Hlen; reflexivity).
  rewrite Hflat. simpl Nat.eqb. cbv iota.
  rewrite (@chunks_loop_concat A 3 fr 15); [|lia|assumption|lia].
  rewrite Hlen. f_equal.
  replace fr with (concat [fr]) at 1 by (simpl; apply app_nil_r).
  apply chunks_loop_concat; [lia| |simpl; lia].
  constructor; [assumption|constructor].
Qed.

End Reshape.

(** ** Counting the initial frames *)

Section InitialCoords.

Lemma ceil_div_lower (N n : nat) :
  1 <= n <= N -> n <= Sim.ceil_div N (N / n).
Proof.
  intros [H1 H2]. unfold Sim.ceil_div.
  assert (Hs : 0 < N / n) by (apply Nat.div_str_pos; lia).
  apply Nat.div_le_lower_bound; [lia|].
  pose proof (Nat.Div0.mul_div_le N n). nia.
Qed.

Lemma ceil_div_strict (N n : nat) :
  1 <= n <= N -> N mod (N / n) <> 0 -> n < Sim.ceil_div N (N / n).
Proof.
  intros [H1 H2] Hmod. unfold Sim.ceil_div.
  assert (Hs : 0 < N / n) by (apply Nat.div_str_pos; lia).
  set (s := N / n) in *.
  pose proof (Nat.div_mod_eq N s) as Hdm.
  pose proof (Nat.mod_upper_bound N s ltac:(lia)) as Hub.
  assert (Hq : n <= N / s).
  { apply Nat.div_le_lower_bound; [lia|].
    pose proof (Nat.Div0.mul_div_le N n). unfold s. nia. }
  assert (Hc : (N + s - 1) / s = N / s + 1).
  { replace (N + s - 1) with ((N mod s - 1) + (N / s + 1) * s) by nia.
    rewrite Nat.div_add by lia. rewrite Nat.div_small by lia. reflexivity. }
  lia.
Qed.

Lemma length_singletons {A B : Type} (g : A -> B) (l : list A) :
  length (concat (map (fun a => [g a]) l)) = length l.
Proof. induction l; simpl; auto. Qed.

Lemma take_upto_length {A : Type} (k : nat) (l : list A) :
  k <= length l -> length (Np.take_upto (Z.of_nat k) l) = k.
Proof.
  intros Hk. unfold Np.take_upto.
  destruct (Z.leb_spec 0 (Z.of_nat k)); [|lia].
  rewrite Nat2Z.id. apply firstn_length_le; assumption.
Qed.

Lemma embeddings_length (n_frames : nat) : length (Emb.embeddings n_frames) = n_frames.
Proof. unfold Emb.embeddings, Np.tile. apply repeat_length. Qed.

End InitialCoords.

(** C9.  For a dataset of [N] frames of 5 beads and [1 <= n_sims <= N], the
    initial-coordinate construction succeeds and yields exactly
    [ceil(N / (N // n_sims))] frames; that number is at least [n_sims], and
    strictly larger whenever [N // n_sims] does not divide [N], while the
    embeddings passed alongside have exactly [n_sims] rows. *)
Theorem initial_coords_count {A : Type} (coords : list (list (list A))) (N n_sims : nat) :
  Np.has_shape3 N 5 3 coords ->
  1 <= n_sims <= N ->
  exists init,
    Sim.initial_coords coords n_sims = Some init /\
    length init = Sim.ceil_div N (N / n_sims) /\
    n_sims <= length init /\
    (N mod (N / n_sims) <> 0 -> n_sims < length init) /\
    length (Sim.sim_embeddings (Emb.embeddings N) n_sims) = n_sims.
Proof.
  intros [Hlen Hframes] Hn.
  assert (Hs : 0 < N / n_sims) by (apply Nat.div_str_pos; lia).
  unfold Sim.initial_coords, Np.floordiv, Np.arange. rewrite Hlen.
  destruct (Nat.eqb_spec n_sims 0) as [|_]; [lia|]. simpl bind_opt.
  destruct (Nat.eqb_spec (N / n_sims) 0) as [|_]; [lia|]. simpl bind_opt.
  set (idx := Np.arange_loop (N - 0) 0 N (N / n_sims)).
  assert (Hidx : length idx = Sim.ceil_div N (N / n_sims)).
  { unfold idx. rewrite arange_loop_length by lia. f_equal. lia. }
  assert (Hmap : mapM (fun i => (fr <- Np.getitem coords i ;; Np.reshape_m1_5_3 fr)%opt) idx
                 = Some (map (fun i => [nth i coords []]) idx)).
  { apply mapM_pointwise. unfold idx.
    eapply Forall_impl; [|apply arange_loop_bound].
    intros i Hi. cbv beta in Hi. unfold Np.getitem.
    rewrite (nth_error_nth' coords [] (n:=i)) by lia. simpl.
    apply reshape_single_frame.
    rewrite Forall_forall in Hframes.
    destruct (Hframes (nth i coords [])) as [Hb Hr]; [apply nth_In; lia|].
    split; assumption. }
  rewrite Hmap. simpl bind_opt.
  eexists; split; [reflexivity|].
  rewrite length_singletons, Hidx.
  repeat split.
  - apply ceil_div_lower; assumption.
  - apply ceil_div_strict; assumption.
  - unfold Sim.sim_embeddings. apply take_upto_length.
    rewrite embeddings_length. lia.
Qed.

(** At 10 frames and 3 requested simulations the construction yields 4
    frames for 3 rows of embeddings. *)
Lemma initial_coords_count_witness :
  exists init,
    Sim.initial_coords (repeat (repeat [1; 2; 3]%Z 5) 10) 3 = Some init /\
    length init = 4 /\ 3 < length init /\
    length (Sim.sim_embeddings (Emb.embeddings 10) 3) = 3.
Proof.
  assert (Hshape : Np.has_shape3 10 5 3 (repeat (repeat [1; 2; 3]%Z 5) 10)).
  { split; [reflexivity|]. repeat constructor. }
  assert (Hrange : 1 <= 3 <= 10) by lia.
  destruct (initial_coords_count (n_sims := 3) Hshape Hrange)
    as [init [Hinit [Hcount [_ [Hstrict Hemb]]]]].
  exists init. split; [exact Hinit|]. split; [exact Hcount|].
  split; [apply Hstrict; simpl; lia|exact Hemb].
Defined.

(** ** Embedding codes *)

Section Codes.

Lemma bead_codes_valid : Forall Emb.valid_code Emb.bead_codes.
Proof. unfold Emb.bead_codes, Emb.valid_code, Emb.n_embeddings. repeat constructor; lia. Qed.

Lemma embeddings_rows (n_frames : nat) (row : list Z) :
  In row (Emb.embeddings n_frames) -> row = Emb.bead_codes.
Proof.
  unfold Emb.embeddings, Np.tile. intros Hin.
  apply repeat_spec in Hin. subst. simpl. reflexivity.
Qed.

Lemma take_upto_incl {A : Type} (k : Z) (l : list A) (x : A) :
  In x (Np.take_upto k l) -> In x l.
Proof.
  unfold Np.take_upto.
  destruct (0 <=? k)%Z; intros Hx;
    match type of Hx with
    | In _ (firstn ?n _) => rewrite <- (firstn_skipn n l)
    end; apply in_or_app; left; exact Hx.
Qed.

Lemma take_upto_Forall {A : Type} (P : A -> Prop) (k : Z) (l : list A) :
  Forall P l -> Forall P (Np.take_upto k l).
Proof.
  rewrite !Forall_forall. intros H x Hx. apply H. eapply take_upto_incl; eauto.
Qed.

End Codes.

(** C7.  The embeddings array has one row per frame, every row is exactly
    (6, 7, 6, 6, 7), and every code in it, and in every truncated row taken
    from it, is an integer strictly between the padding code 0 and
    [n_embeddings = 10]. *)
Theorem embedding_codes_valid (n_frames : nat) :
  length (Emb.embeddings n_frames) = n_frames /\
  Forall (fun row => row = [6; 7; 6; 6; 7]%Z /\ Forall Emb.valid_code row)
         (Emb.embeddings n_frames) /\
  (forall (num : nat) (k : Z),
      Forall (fun v => (0 < v < 10)%Z)
             (Np.take_upto k (nth num (Emb.embeddings n_frames) []))).
Proof.
  split; [apply embeddings_length|]. split.
  - rewrite Forall_forall. intros row Hrow.
    apply embeddings_rows in Hrow. subst. split; [reflexivity|apply bead_codes_valid].
  - intros num k. apply take_upto_Forall.
    destruct (Nat.lt_ge_cases num (length (Emb.embeddings n_frames))) as [Hlt|Hge].
    + rewrite (embeddings_rows n_frames (nth num (Emb.embeddings n_frames) []))
        by (apply nth_In; assumption).
      apply bead_codes_valid.
    + rewrite nth_overflow by assumption. constructor.
Qed.

(** ** A concrete generator *)

Section LcgContract.

Lemma lcg_draws_length (lo hi : Z) (size : nat) : forall g,
  length (fst (Lcg.draws lo hi size g)) = size.
Proof.
  induction size as [|size IH]; intros g; simpl; [reflexivity|].
  specialize (IH (Lcg.next g)).
  destruct (Lcg.draws lo hi size (Lcg.next g)) as [l g'']. simpl in *. congruence.
Qed.

Lemma lcg_draws_range (lo hi : Z) (size : nat) : forall g,
  (lo < hi)%Z -> Forall (fun v => (lo <= v < hi)%Z) (fst (Lcg.draws lo hi size g)).
Proof.
  induction size as [|size IH]; intros g Hlt; simpl; [constructor|].
  specialize (IH (Lcg.next g) Hlt).
  destruct (Lcg.draws lo hi size (Lcg.next g)) as [l g'']. simpl in *.
  constructor; [|assumption].
  pose proof (Z.mod_pos_bound (Lcg.next g) (hi - lo) ltac:(lia)). lia.
Qed.

End LcgContract.

Lemma lcg_contract : randint_contract Z.
Proof.
  intros lo hi size g. split; [apply lcg_draws_length|apply lcg_draws_range].
Qed.

(** ** The truncation loop *)

Section Truncation.

Context {A : Type}.
Variables (coords forces : list (list (list A))) (embeddings : list (list Z)).

Lemma truncate_example_ok (n : nat) (acc : Dataset.varied A) (num : nat) (len : Z) :
  length coords = n -> length forces = n -> length embeddings = n -> num < n ->
  Dataset.truncate_example coords forces embeddings acc (num, len)
  = Some (Dataset.appended coords forces embeddings acc [(num, len)]).
Proof.
  intros Hc Hf He Hnum. unfold Dataset.truncate_example, Np.getitem.
  rewrite (nth_error_nth' coords [] (n:=num)) by lia.
  rewrite (nth_error_nth' forces [] (n:=num)) by lia.
  rewrite (nth_error_nth' embeddings [] (n:=num)) by lia.
  reflexivity.
Qed.

Lemma truncate_loop (n : nat) (items : list (nat * Z)) : forall acc,
  length coords = n -> length forces = n -> length embeddings = n ->
  Forall (fun it => fst it < n) items ->
  Dataset.for_each (Dataset.truncate_example coords forces embeddings) items acc
  = Some (Dataset.appended coords forces embeddings acc items).
Proof.
  induction items as [|[num len] rest IH]; intros acc Hc Hf He Hall.
  - simpl. unfold Dataset.appended. simpl. rewrite !app_nil_r. destruct acc; reflexivity.
  - inversion_clear Hall as [|? ? Hnum Hrest]. simpl in Hnum.
    cbn [Dataset.for_each].
    rewrite (@truncate_example_ok n) by assumption.
    rewrite IH by assumption.
    unfold Dataset.appended. simpl. rewrite <- !app_assoc. reflexivity.
Qed.

End Truncation.

Section Enumerate.

Context {B : Type}.

Lemma combine_seq_nth (l : list B) : forall k i x,
  nth_error l i = Some x ->
  nth_error (combine (seq k (length l)) l) i = Some (k + i, x).
Proof.
  induction l as [|b t IH]; intros k i x Hi.
  - destruct i; discriminate.
  - destruct i as [|i]; simpl in *.
    + injection Hi as ->. f_equal. f_equal. lia.
    + rewrite (IH (S k) i x Hi). f_equal. f_equal. lia.
Qed.

Lemma enumerate_nth (l : list B) (i : nat) (x : B) :
  nth_error l i = Some x -> nth_error (Dataset.enumerate l) i = Some (i, x).
Proof. intros Hi. unfold Dataset.enumerate. rewrite (combine_seq_nth l 0 i Hi). reflexivity. Qed.

Lemma enumerate_length (l : list B) : length (Dataset.enumerate l) = length l.
Proof.
  unfold Dataset.enumerate. rewrite length_combine, length_seq. apply Nat.min_id.
Qed.

Lemma enumerate_bound (l : list B) :
  Forall (fun it => fst it < length l) (Dataset.enumerate l).
Proof.
  rewrite Forall_forall. intros [i x] Hin. simpl.
  unfold Dataset.enumerate in Hin. apply in_combine_l in Hin.
  apply in_seq in Hin. lia.
Qed.

End Enumerate.

Section Shapes.

Context {A : Type}.

Lemma frame_shape (n b d : nat) (a : list (list (list A))) (i : nat) :
  Np.has_shape3 n b d a -> i < n -> Np.has_shape2 b d (nth i a []).
Proof.
  intros [Hlen Hall] Hi. rewrite Forall_forall in Hall.
  apply (Hall (nth i a [])). apply nth_In. lia.
Qed.

Lemma truncated_shape (b d len : nat) (fr : list (list A)) :
  Np.has_shape2 b d fr -> len <= b ->
  Np.has_shape2 len d (Np.take_upto (Z.of_nat len) fr).
Proof.
  intros [Hlen Hrows] Hle. split.
  - apply take_upto_length. lia.
  - apply take_upto_Forall. assumption.
Qed.

End Shapes.

(** C4.  With a generator that meets the contract of [randint] and
    coordinate and force arrays of shape (N, 5, 3), the dataset
    construction succeeds; every example [num] gets a bead count
    [length = random_lengths[num]] between 2 and 5, its coordinates and forces
    have shape (length, 3) and its embeddings have [length] entries. *)
Theorem variable_lengths_agree {G A : Type} `{NumpyRandom G}
    (coords forces : list (list (list A))) (N : nat) (g : G) :
  randint_contract G ->
  Np.has_shape3 N 5 3 coords ->
  Np.has_shape3 N 5 3 forces ->
  exists random_lengths v g',
    Dataset.variable_dataset coords forces g = Some ((random_lengths, v), g') /\
    length random_lengths = N /\
    length (Dataset.varied_coords v) = N /\
    length (Dataset.varied_forces v) = N /\
    length (Dataset.varied_embeddings v) = N /\
    forall num, num < N ->
      exists len : nat,
        nth_error random_lengths num = Some (Z.of_nat len) /\
        2 <= len <= 5 /\
        (exists c, nth_error (Dataset.varied_coords v) num = Some c /\
                   Np.has_shape2 len 3 c) /\
        (exists f, nth_error (Dataset.varied_forces v) num = Some f /\
                   Np.has_shape2 len 3 f) /\
        (exists e, nth_error (Dataset.varied_embeddings v) num = Some e /\
                   length e = len).
Proof.
  intros Hrng Hc Hf.
  destruct (Hrng 2%Z 6%Z N (seed_state 1133)) as [Hlen Hrange].
  specialize (Hrange ltac:(lia)).
  destruct Hc as [HcN Hcs]. destruct Hf as [HfN Hfs].
  unfold Dataset.variable_dataset, nb_bind, np_random_seed, np_random_randint, nb_lift, nb_ret.
  rewrite HcN.
  destruct (randint 2 6 N (seed_state 1133)) as [lens g1]. simpl in Hlen, Hrange.
  unfold Dataset.truncate_all.
  rewrite (@truncate_loop A coords forces (Emb.embeddings N) N);
    [|assumption|assumption|apply embeddings_length
     |rewrite <- Hlen; apply enumerate_bound].
  unfold Dataset.appended. simpl.
  eexists lens, _, g1. split; [reflexivity|]. simpl.
  rewrite !length_map, enumerate_length.
  repeat (split; [assumption|]).
  intros num Hnum.
  destruct (nth_error lens num) as [z|] eqn:Hz;
    [|apply nth_error_None in Hz; lia].
  rewrite Forall_forall in Hrange.
  pose proof (Hrange z (nth_error_In _ _ Hz)) as Hzr.
  assert (Hex : exists len : nat, z = Z.of_nat len /\ 2 <= len <= 5)
    by (exists (Z.to_nat z); lia).
  destruct Hex as [len [-> Hlen25]].
  exists len. split; [reflexivity|]. split; [lia|].
  rewrite !nth_error_map, (enumerate_nth lens num Hz). simpl.
  repeat split.
  - eexists; split; [reflexivity|].
    apply (@truncated_shape A 5); [|lia].
    apply (@frame_shape A N); [split; assumption|assumption].
  - eexists; split; [reflexivity|].
    apply (@truncated_shape A 5); [|lia].
    apply (@frame_shape A N); [split; assumption|assumption].
  - eexists; split; [reflexivity|].
    apply take_upto_length.
    rewrite (embeddings_rows N (nth num (Emb.embeddings N) []))
      by (apply nth_In; rewrite embeddings_length; assumption).
    simpl. lia.
Qed.

(** Two frames of five beads, drawn with the concrete generator. *)
Lemma variable_lengths_agree_witness :
  let coords := repeat (repeat [0; 0; 0]%Z 5) 2 in
  exists random_lengths v g',
    Dataset.variable_dataset coords coords 0%Z = Some ((random_lengths, v), g') /\
    length random_lengths = 2 /\
    length (Dataset.varied_coords v) = 2 /\
    length (Dataset.varied_forces v) = 2 /\
    length (Dataset.varied_embeddings v) = 2 /\
    forall num, num < 2 ->
      exists len : nat,
        nth_error random_lengths num = Some (Z.of_nat len) /\
        2 <= len <= 5 /\
        (exists c, nth_error (Dataset.varied_coords v) num = Some c /\
                   Np.has_shape2 len 3 c) /\
        (exists f, nth_error (Dataset.varied_forces v) num = Some f /\
                   Np.has_shape2 len 3 f) /\
        (exists e, nth_error (Dataset.varied_embeddings v) num = Some e /\
                   length e = len).
Proof.
  intros coords.
  assert (Hshape : Np.has_shape3 2 5 3 coords).
  { split; [reflexivity|]. repeat constructor. }
  exact (variable_lengths_agree (H := lcg_random) 0%Z lcg_contract Hshape Hshape).
Defined.

(** C10.  The dataset construction does not depend on the state in which
    the global generator is found: two executions on the same arrays, started
    from any two generator states, produce the same [random_lengths] and the
    same truncated coordinates, forces and embeddings. *)
Theorem variable_dataset_deterministic {G A : Type} `{NumpyRandom G}
    (coords forces : list (list (list A))) (g g' : G) :
  Dataset.variable_dataset coords forces g = Dataset.variable_dataset coords forces g'.
Proof.
  unfold Dataset.variable_dataset, nb_bind, np_random_seed. reflexivity.
Qed.

(** The seeding is what the previous statement rests on: the draw itself
    depends on the generator state. *)
Lemma unseeded_draw_depends_on_state :
  np_random_randint (G := Z) 2 6 3 1%Z <> np_random_randint (G := Z) 2 6 3 2%Z.
Proof. vm_compute. discriminate. Qed.


(** ** Minimum of an array *)

Section Minimum.

Local Open Scope R_scope.

Lemma fold_Rmin_le_init (t : list R) : forall x, fold_left Rmin t x <= x.
Proof.
  induction t as [|a t IH]; intros x; simpl; [lra|].
  eapply Rle_trans; [apply IH|apply Rmin_l].
Qed.

Lemma fold_Rmin_le_elem (t : list R) : forall x y, In y t -> fold_left Rmin t x <= y.
Proof.
  induction t as [|a t IH]; intros x y Hy; simpl in *; [contradiction|].
  destruct Hy as [->|Hy].
  - eapply Rle_trans; [apply fold_Rmin_le_init|apply Rmin_r].
  - apply IH; assumption.
Qed.

Lemma fold_Rmin_attained (t : list R) : forall x,
  fold_left Rmin t x = x \/ In (fold_left Rmin t x) t.
Proof.
  induction t as [|a t IH]; intros x; simpl; [left; reflexivity|].
  destruct (IH (Rmin x a)) as [Heq|Hin]; [|right; right; assumption].
  rewrite Heq. unfold Rmin. destruct (Rle_dec x a); [left|right; left]; reflexivity.
Qed.

Lemma np_min_spec (l : list R) (m : R) :
  Rama.np_min l = Some m -> In m l /\ forall y, In y l -> m <= y.
Proof.
  destruct l as [|x t]; simpl; [discriminate|].
  intros Hm. injection Hm as <-. split.
  - destruct (fold_Rmin_attained t x) as [->|Hin]; [left; reflexivity|right; assumption].
  - intros y [<-|Hy]; [apply fold_Rmin_le_init|apply fold_Rmin_le_elem; assumption].
Qed.

Lemma np_min_intro (l : list R) (v : R) :
  In v l -> (forall y, In y l -> v <= y) -> Rama.np_min l = Some v.
Proof.
  intros Hin Hle.
  destruct (Rama.np_min l) as [m|] eqn:Hm.
  - destruct (np_min_spec l Hm) as [Hmin Hmle].
    f_equal. apply Rle_antisym; [apply Hmle|apply Hle]; assumption.
  - destruct l; [contradiction|discriminate].
Qed.

Lemma np_min_empty (l : list R) : Rama.np_min l = None <-> l = [].
Proof. destruct l; simpl; split; (reflexivity || discriminate). Qed.

End Minimum.

(** ** Histogram counts *)

Section Counts.

Import Rama (nz).

Lemma np_sum_concat (counts : Rama.grid nat) :
  Rama.np_sum counts = list_sum (concat counts).
Proof.
  unfold Rama.np_sum. induction counts as [|r t IH]; simpl; [reflexivity|].
  rewrite list_sum_app, IH. reflexivity.
Qed.

Lemma in_le_sum (l : list nat) (c : nat) : In c l -> c <= list_sum l.
Proof.
  induction l as [|a t IH]; simpl; [contradiction|].
  intros [->|Hin]; [lia|]. specialize (IH Hin). lia.
Qed.

Lemma unpopulated_sum (l : list nat) : filter nz l = [] -> list_sum l = 0.
Proof.
  induction l as [|a t IH]; simpl; [reflexivity|].
  unfold nz at 1. destruct (Nat.eqb_spec a 0) as [->|Ha]; simpl; [exact IH|discriminate].
Qed.

Lemma populated_sum (l : list nat) : 1 <= length (filter nz l) -> 0 < list_sum l.
Proof.
  induction l as [|a t IH]; simpl; [lia|].
  unfold nz at 1. destruct (Nat.eqb_spec a 0) as [->|Ha]; simpl; [exact IH|lia].
Qed.

Lemma two_populated_lt (l : list nat) (c : nat) :
  2 <= length (filter nz l) -> In c l -> c < list_sum l.
Proof.
  induction l as [|a t IH]; simpl; [lia|].
  unfold nz at 1. destruct (Nat.eqb_spec a 0) as [->|Ha]; simpl; intros Hpop [<-|Hin].
  - pose proof (@populated_sum t ltac:(lia)). lia.
  - apply IH; assumption.
  - pose proof (@populated_sum t ltac:(lia)). lia.
  - pose proof (in_le_sum t c Hin). lia.
Qed.

Lemma one_populated_eq (l : list nat) (c : nat) :
  length (filter nz l) <= 1 -> In c l -> c <> 0 -> c = list_sum l.
Proof.
  induction l as [|a t IH]; simpl; [contradiction|].
  unfold nz at 1. destruct (Nat.eqb_spec a 0) as [->|Ha]; simpl; intros Hpop [<-|Hin] Hc.
  - contradiction.
  - apply IH; assumption.
  - assert (Ht : filter nz t = []) by (destruct (filter nz t); [reflexivity|simpl in Hpop; lia]).
    rewrite (unpopulated_sum t Ht). lia.
  - assert (Ht : filter nz t = []) by (destruct (filter nz t); [reflexivity|simpl in Hpop; lia]).
    pose proof (in_le_sum t c Hin). rewrite (unpopulated_sum t Ht) in *. lia.
Qed.

End Counts.

(** ** Energies of a histogram *)

Section Energies.

Local Open Scope R_scope.

Lemma raw_energy_eq (p : R) : Rama.raw_energy p = Some (Rama.raw_value p).
Proof.
  unfold Rama.raw_energy, Rama.np_log_where, Rama.positive, Rama.np_log, Rama.raw_value.
  destruct (Rlt_dec 0 p); simpl; f_equal; lra.
Qed.

Lemma raw_energies_eq (pops : Rama.grid R) :
  Rama.raw_energies pops = Some (map (map Rama.raw_value) pops).
Proof.
  unfold Rama.raw_energies. apply mapM_pointwise.
  rewrite Forall_forall. intros row _. apply mapM_pointwise.
  rewrite Forall_forall. intros p _. apply raw_energy_eq.
Qed.

Lemma raw_grid (counts : Rama.grid nat) :
  map (map Rama.raw_value) (Rama.populations counts)
  = map (map (Rama.bin_energy (Rama.np_sum counts))) counts.
Proof.
  unfold Rama.populations. rewrite map_map. apply map_ext. intros row.
  rewrite map_map. reflexivity.
Qed.

Lemma bin_energy_empty (total : nat) : Rama.bin_energy total 0 = 0.
Proof.
  unfold Rama.bin_energy, Rama.raw_value. simpl INR.
  replace (0 / INR total) with 0 by (unfold Rdiv; ring).
  destruct (Rlt_dec 0 0); [lra|reflexivity].
Qed.

Lemma bin_energy_full (total : nat) : Rama.bin_energy total total = 0.
Proof.
  destruct total as [|k]; [apply bin_energy_empty|].
  unfold Rama.bin_energy, Rama.raw_value.
  assert (Hpos : 0 < INR (S k)) by (apply lt_0_INR; lia).
  replace (INR (S k) / INR (S k)) with 1 by (field; lra).
  destruct (Rlt_dec 0 1); [rewrite ln_1; lra|reflexivity].
Qed.

Lemma population_between (total c : nat) :
  (0 < c < total)%nat -> 0 < INR c / INR total < 1.
Proof.
  intros [H0 H1].
  assert (Hc : 0 < INR c) by (apply lt_0_INR; assumption).
  assert (Ht : INR c < INR total) by (apply lt_INR; assumption).
  split.
  - apply Rdiv_lt_0_compat; lra.
  - apply (Rmult_lt_reg_r (INR total)); [lra|].
    unfold Rdiv. rewrite Rmult_assoc, Rinv_l by lra. lra.
Qed.

Lemma bin_energy_partial (total c : nat) :
  (0 < c < total)%nat ->
  Rama.bin_energy total c = -0.6 * ln (INR c / INR total) /\ 0 < Rama.bin_energy total c.
Proof.
  intros Hc. destruct (population_between Hc) as [Hp0 Hp1].
  unfold Rama.bin_energy, Rama.raw_value.
  destruct (Rlt_dec 0 (INR c / INR total)); [|contradiction].
  split; [reflexivity|].
  pose proof (ln_increasing _ _ Hp0 Hp1) as Hln. rewrite ln_1 in Hln. lra.
Qed.

Lemma truthy_true (x : R) : Rama.truthy x = true <-> x <> 0.
Proof. unfold Rama.truthy. destruct (Req_dec_T x 0); split; congruence. Qed.

Lemma truthy_false (x : R) : Rama.truthy x = false <-> x = 0.
Proof. unfold Rama.truthy. destruct (Req_dec_T x 0); split; congruence. Qed.

Lemma nonzero_in (e : Rama.grid R) (x : R) :
  In x (Rama.nonzero e) <-> In x (concat e) /\ x <> 0.
Proof. unfold Rama.nonzero. rewrite filter_In, truthy_true. reflexivity. Qed.

Lemma concat_grid {A B : Type} (f : A -> B) (g : list (list A)) :
  concat (map (map f) g) = map f (concat g).
Proof. symmetry. apply concat_map. Qed.

End Energies.

Section Histogram.

Local Open Scope R_scope.

Variable counts : Rama.grid nat.

Let total : nat := Rama.np_sum counts.
Let flat : list nat := concat counts.

Lemma in_grid (row : list nat) (c : nat) : In row counts -> In c row -> In c flat.
Proof. intros Hrow Hc. unfold flat. apply in_concat. exists row. split; assumption. Qed.

Lemma raw_nonzero :
  Rama.nonzero (map (map (Rama.bin_energy total)) counts)
  = filter Rama.truthy (map (Rama.bin_energy total) flat).
Proof. unfold Rama.nonzero. rewrite concat_grid. reflexivity. Qed.

Lemma energies_unfold :
  Rama.energies counts
  = Rama.shifted_energies (map (map (Rama.bin_energy total)) counts).
Proof.
  unfold Rama.energies. rewrite raw_energies_eq. simpl bind_opt.
  rewrite raw_grid. reflexivity.
Qed.

(** With at most one populated bin no raw energy differs from zero and the
    minimum is taken over an empty selection. *)
Lemma energies_raises : (Rama.populated counts <= 1)%nat -> Rama.energies counts = None.
Proof.
  intros Hpop. rewrite energies_unfold. unfold Rama.shifted_energies.
  rewrite raw_nonzero.
  assert (Hnil : filter Rama.truthy (map (Rama.bin_energy total) flat) = []).
  { destruct (filter Rama.truthy (map (Rama.bin_energy total) flat)) as [|x t] eqn:Hf;
      [reflexivity|exfalso].
    assert (Hx : In x (filter Rama.truthy (map (Rama.bin_energy total) flat)))
      by (rewrite Hf; left; reflexivity).
    apply filter_In in Hx. destruct Hx as [Hin Htruthy].
    apply in_map_iff in Hin. destruct Hin as [c [<- Hc]].
    apply truthy_true in Htruthy. apply Htruthy.
    destruct (Nat.eq_dec c 0) as [->|Hc0]; [apply bin_energy_empty|].
    rewrite (one_populated_eq flat Hpop Hc Hc0).
    unfold total. rewrite np_sum_concat. apply bin_energy_full. }
  rewrite Hnil. reflexivity.
Qed.

(** With two or more populated bins the energies are computed: the minimum
    raw energy [m] is attained at a populated bin and every bin gets its free
    energy relative to [m]. *)
Lemma energies_populated :
  (2 <= Rama.populated counts)%nat ->
  exists m,
    Rama.energies counts = Some (map (map (Rama.free_energy total m)) counts) /\
    (exists c, In c flat /\ c <> 0%nat /\ Rama.bin_energy total c = m) /\
    (forall c, In c flat -> c <> 0%nat -> m <= Rama.bin_energy total c) /\
    (forall c, In c flat -> c <> 0%nat ->
               Rama.bin_energy total c = -0.6 * ln (INR c / INR total)).
Proof.
  intros Hpop.
  assert (Hlt : forall c, In c flat -> (c < total)%nat).
  { intros c Hc. unfold total. rewrite np_sum_concat. apply two_populated_lt; assumption. }
  assert (Hpart : forall c, In c flat -> c <> 0%nat ->
            Rama.bin_energy total c = -0.6 * ln (INR c / INR total) /\ 0 < Rama.bin_energy total c).
  { intros c Hc Hc0. apply bin_energy_partial. specialize (Hlt c Hc). lia. }
  assert (Hsome : exists c0, In c0 flat /\ c0 <> 0%nat).
  { unfold Rama.populated in Hpop. fold flat in Hpop.
    destruct (filter Rama.nz flat) as [|c0 t] eqn:Hf; [simpl in Hpop; lia|].
    assert (Hc0 : In c0 (filter Rama.nz flat)) by (rewrite Hf; left; reflexivity).
    apply filter_In in Hc0. destruct Hc0 as [Hin Hnz]. exists c0. split; [assumption|].
    unfold Rama.nz in Hnz. intros ->. discriminate. }
  destruct Hsome as [c0 [Hc0 Hc0nz]].
  rewrite energies_unfold. unfold Rama.shifted_energies. rewrite raw_nonzero.
  destruct (Rama.np_min (filter Rama.truthy (map (Rama.bin_energy total) flat))) as [m|] eqn:Hm.
  - destruct (np_min_spec _ Hm) as [Hmin Hmle].
    exists m. simpl bind_opt. split; [|split; [|split]].
    + f_equal. rewrite map_map. apply map_ext_in. intros row Hrow.
      rewrite map_map. apply map_ext_in. intros c Hc.
      pose proof (in_grid row c Hrow Hc) as Hflat.
      unfold Rama.free_energy.
      destruct (Nat.eqb_spec c 0) as [->|Hcnz].
      * rewrite bin_energy_empty.
        destruct (Rama.truthy 0) eqn:Ht; [apply truthy_true in Ht; lra|reflexivity].
      * destruct (Hpart c Hflat Hcnz) as [Heq Hpos].
        destruct (Rama.truthy (Rama.bin_energy total c)) eqn:Ht;
          [rewrite Heq; reflexivity|apply truthy_false in Ht; lra].
    + apply filter_In in Hmin. destruct Hmin as [Hin Ht].
      apply in_map_iff in Hin. destruct Hin as [c [Hbc Hc]].
      exists c. split; [assumption|]. split; [|assumption].
      intros ->. rewrite bin_energy_empty in Hbc. subst m.
      apply truthy_true in Ht. lra.
    + intros c Hc Hcnz. apply Hmle. apply filter_In. split.
      * apply in_map. assumption.
      * apply truthy_true. destruct (Hpart c Hc Hcnz). lra.
    + intros c Hc Hcnz. apply Hpart; assumption.
  - exfalso. apply np_min_empty in Hm.
    assert (Hin : In (Rama.bin_energy total c0) (filter Rama.truthy (map (Rama.bin_energy total) flat))).
    { apply filter_In. split; [apply in_map; assumption|].
      apply truthy_true. destruct (Hpart c0 Hc0 Hc0nz). lra. }
    rewrite Hm in Hin. contradiction.
Qed.

End Histogram.

Section WellFormed.

Local Open Scope R_scope.

Lemma Forall2_map_in {A B : Type} (P : A -> B -> Prop) (f : A -> B) (l : list A) :
  (forall a, In a l -> P a (f a)) -> Forall2 P l (map f l).
Proof.
  induction l as [|a t IH]; intros H; simpl; constructor.
  - apply H. left. reflexivity.
  - apply IH. intros b Hb. apply H. right. assumption.
Qed.

Lemma Forall_map_in {A B : Type} (P : B -> Prop) (f : A -> B) (l : list A) :
  (forall a, In a l -> P (f a)) -> Forall P (map f l).
Proof.
  intros H. rewrite Forall_forall. intros b Hb.
  apply in_map_iff in Hb. destruct Hb as [a [<- Ha]]. apply H. assumption.
Qed.

(** The energies of a histogram with two or more populated bins: nonnegative,
    zero exactly on the empty bins, which are the masked ones, and with least
    nonzero value 1e-6. *)
Lemma energies_well_formed (counts : Rama.grid nat) :
  (2 <= Rama.populated counts)%nat ->
  exists E,
    Rama.energies counts = Some E /\
    Forall (Forall (fun x => 0 <= x)) E /\
    Forall2 (Forall2 (fun c x => (c = 0%nat -> x = 0) /\ (c <> 0%nat -> 1e-6 <= x)))
            counts E /\
    Rama.np_min (Rama.nonzero E) = Some 1e-6 /\
    Rama.mask E = map (map (fun c => (c =? 0)%nat)) counts.
Proof.
  intros Hpop.
  destruct (energies_populated counts Hpop) as [m [HE [[cm [Hcm [Hcmnz Hcmeq]]] [Hle Hform]]]].
  set (total := Rama.np_sum counts) in *.
  set (fe := Rama.free_energy total m) in *.
  assert (Hfe0 : fe 0%nat = 0) by reflexivity.
  assert (Hfe : forall c, In c (concat counts) -> c <> 0%nat ->
                          fe c = Rama.bin_energy total c - m + 1e-6 /\ 1e-6 <= fe c).
  { intros c Hc Hcnz. unfold fe, Rama.free_energy.
    destruct (Nat.eqb_spec c 0) as [|_]; [contradiction|].
    rewrite <- (Hform c Hc Hcnz). split; [reflexivity|].
    specialize (Hle c Hc Hcnz). lra. }
  exists (map (map fe) counts). split; [exact HE|]. split; [|split; [|split]].
  - apply Forall_map_in. intros row Hrow. apply Forall_map_in. intros c Hc.
    destruct (Nat.eq_dec c 0) as [->|Hcnz]; [rewrite Hfe0; lra|].
    destruct (Hfe c (in_grid counts row c Hrow Hc) Hcnz). lra.
  - apply Forall2_map_in. intros row Hrow. apply Forall2_map_in. intros c Hc. split.
    + intros ->. exact Hfe0.
    + intros Hcnz. apply (Hfe c (in_grid counts row c Hrow Hc) Hcnz).
  - apply np_min_intro.
    + apply nonzero_in. rewrite concat_grid. split; [|lra].
      destruct (Hfe cm Hcm Hcmnz) as [Heq _].
      replace 1e-6 with (fe cm) by (rewrite Heq, Hcmeq; lra).
      apply in_map. assumption.
    + intros y Hy. apply nonzero_in in Hy. destruct Hy as [Hin Hy0].
      rewrite concat_grid in Hin. apply in_map_iff in Hin. destruct Hin as [c [<- Hc]].
      destruct (Nat.eq_dec c 0) as [->|Hcnz]; [rewrite Hfe0 in Hy0; lra|].
      apply (Hfe c Hc Hcnz).
  - unfold Rama.mask. rewrite map_map. apply map_ext_in. intros row Hrow.
    rewrite map_map. apply map_ext_in. intros c Hc.
    destruct (Nat.eqb_spec c 0) as [->|Hcnz].
    + rewrite Hfe0. destruct (Rama.truthy 0) eqn:Ht; [apply truthy_true in Ht; lra|reflexivity].
    + destruct (Hfe c (in_grid counts row c Hrow Hc) Hcnz) as [_ Hge].
      destruct (Rama.truthy (fe c)) eqn:Ht; [reflexivity|apply truthy_false in Ht; lra].
Qed.



End WellFormed.

(** C8.  A histogram of 60 by 60 bins that received a single sample has
    counts that are not all zero, yet no energies array is computed for it:
    its only populated bin has raw energy zero, the selection of nonzero
    energies is empty and [np.min] raises. *)
Theorem single_sample_histogram_raises :
  Rama.np_sum (Rama.single_bin 60 30 30 1) = 1 /\
  Rama.energies (Rama.single_bin 60 30 30 1) = None.
Proof.
  split; [vm_compute; reflexivity|].
  apply energies_raises. apply Nat.leb_le. vm_compute. reflexivity.
Qed.



(** ** The training loop refines force matching *)

Section ForceMatching.

Context {L : Train.Library}.

Variables (strength : Q) (verbose : bool).

Lemma enumerate_snd {B : Type} (l : list B) : map snd (Dataset.enumerate l) = l.
Proof.
  unfold Dataset.enumerate. generalize 0.
  induction l as [|b t IH]; intros k; simpl; [reflexivity|].
  rewrite IH. reflexivity.
Qed.

(** One pass of the loop body is one force-matching step; the gradients the
    optimizer sees are those of the loss of this batch alone. *)
Lemma train_batch_step (v : Train.locals) (num : nat) (b : Train.Batch) :
  Train.criterion (Train.net (Train.st v)) = Train.ForceLoss ->
  let v' := Train.train_batch strength verbose v (num, b) in
  (Train.net (Train.st v'), Train.optimizer (Train.st v'))
  = Train.force_matching_step strength
      (Train.net (Train.st v), Train.optimizer (Train.st v)) b /\
  Train.criterion (Train.net (Train.st v')) = Train.ForceLoss /\
  Train.n v' = Train.n v + 1 /\
  (exists coord force emb,
      b = (coord, force, emb) /\
      Train.grads (Train.st v')
      = [Train.ForceLoss (snd (Train.forward (Train.net (Train.st v)) coord emb)) force]).
Proof.
  intros Hcrit. destruct b as [[coord force] emb].
  unfold Train.train_batch, Train.force_matching_step. simpl fst. simpl snd.
  destruct (Train.forward (Train.net (Train.st v)) coord emb) as [energy pred_force] eqn:Hfw.
  rewrite Hcrit. simpl app. simpl snd.
  destruct (Train.optimizer_step (Train.optimizer (Train.st v)) (Train.net (Train.st v))
              [Train.ForceLoss pred_force force]) as [o' m'] eqn:Hstep.
  simpl. split; [reflexivity|]. split.
  - rewrite Train.criterion_lipschitz.
    change m' with (snd (o', m')). rewrite <- Hstep.
    rewrite Train.criterion_step. exact Hcrit.
  - split; [reflexivity|]. exists coord, force, emb.
    split; [reflexivity|]. rewrite Hfw. reflexivity.
Qed.

Lemma train_loop_refines (items : list (nat * Train.Batch)) : forall v,
  Train.criterion (Train.net (Train.st v)) = Train.ForceLoss ->
  let v' := fold_left (Train.train_batch strength verbose) items v in
  (Train.net (Train.st v'), Train.optimizer (Train.st v'))
  = fold_left (Train.force_matching_step strength) (map snd items)
      (Train.net (Train.st v), Train.optimizer (Train.st v)) /\
  Train.criterion (Train.net (Train.st v')) = Train.ForceLoss /\
  Train.n v' = Train.n v + length items.
Proof.
  induction items as [|[num b] rest IH]; intros v Hcrit;
    cbv zeta in *; cbn [fold_left map snd length].
  - repeat split; [assumption|lia].
  - destruct (train_batch_step v num b Hcrit) as [Hstep [Hcrit' [Hn _]]].
    destruct (IH _ Hcrit') as [Hrest [Hcrit'' Hn']].
    rewrite <- Hstep. repeat split; [exact Hrest|exact Hcrit''|].
    rewrite Hn', Hn. lia.
Qed.

Lemma train_epoch_refines (trainloader : nat -> list Train.Batch)
    (s : Train.state) (epoch : nat) :
  trainloader epoch <> [] ->
  Train.criterion (Train.net s) = Train.ForceLoss ->
  exists s',
    Train.train_epoch strength verbose trainloader s epoch = Some s' /\
    (Train.net s', Train.optimizer s')
    = Train.force_matching_epoch strength trainloader
        (Train.net s, Train.optimizer s) epoch /\
    Train.criterion (Train.net s') = Train.ForceLoss.
Proof.
  intros Hne Hcrit. unfold Train.train_epoch, Train.train_batches.
  set (v0 := {| Train.st := s; Train.train_loss := []; Train.n := 0 |}).
  destruct (train_loop_refines (Dataset.enumerate (trainloader epoch)) v0 Hcrit)
    as [Hfold [Hcrit' Hn]].
  rewrite enumerate_snd in Hfold. rewrite enumerate_length in Hn. simpl in Hn.
  set (v := fold_left _ _ v0) in *.
  destruct (Nat.eqb_spec (Train.n v) 0) as [H0|_].
  - destruct (trainloader epoch); [contradiction|simpl in Hn; lia].
  - eexists. split; [reflexivity|]. simpl. split; [|exact Hcrit'].
    unfold Train.force_matching_epoch. simpl in Hfold. rewrite <- Hfold. reflexivity.
Qed.

Lemma train_refines (trainloader : nat -> list Train.Batch) (epochs : list nat) :
  forall s,
  (forall epoch, In epoch epochs -> trainloader epoch <> []) ->
  Train.criterion (Train.net s) = Train.ForceLoss ->
  exists s',
    Dataset.for_each (Train.train_epoch strength verbose trainloader) epochs s = Some s' /\
    (Train.net s', Train.optimizer s')
    = fold_left (Train.force_matching_epoch strength trainloader) epochs
        (Train.net s, Train.optimizer s).
Proof.
  induction epochs as [|epoch rest IH]; intros s Hne Hcrit; simpl.
  - eexists. split; reflexivity.
  - destruct (@train_epoch_refines trainloader s epoch) as [s1 [Hs1 [Hmo Hcrit1]]];
      [apply Hne; left; reflexivity|assumption|].
    rewrite Hs1.
    destruct (IH s1) as [s' [Hs' Hfinal]];
      [intros e He; apply Hne; right; assumption|assumption|].
    exists s'. split; [assumption|]. rewrite Hfinal, Hmo. reflexivity.
Qed.

End ForceMatching.

(** ** Runs of the notebooks *)

Section Runs.

Import Pipeline.

Variable r : run.

Lemma run_cells_forall (P : call -> Prop) (cells : list cell) :
  Forall (fun c => Forall P (trace (c r))) cells ->
  Forall P (trace (run_cells cells r)).
Proof.
  induction 1 as [|c rest Hc _ IH]; simpl; [constructor|].
  destruct (raised (c r)); [exact Hc|].
  unfold trace in *. simpl. rewrite flat_map_app. apply Forall_app. split; assumption.
Qed.

Lemma incl_flat_map {A B : Type} (f : A -> list B) (l : list A) (voc : list B) :
  (forall a, incl (f a) voc) -> incl (flat_map f l) voc.
Proof.
  intros H b Hb. apply in_flat_map in Hb. destruct Hb as [a [_ Hb]]. exact (H a b Hb).
Qed.

Lemma incl_constant_map {A B : Type} (b : B) (l : list A) (voc : list B) :
  In b voc -> incl (map (fun _ => b) l) voc.
Proof.
  intros Hb x Hx. apply in_map_iff in Hx. destruct Hx as [_ [<- _]]. exact Hb.
Qed.

(** Membership in a list written out. *)
Ltac in_voc := cbn; repeat (first [left; reflexivity | right]); fail.

Ltac incl_voc :=
  let x := fresh "x" in
  let Hx := fresh "Hx" in
  intros x Hx; cbn in Hx;
  repeat (destruct Hx as [<-|Hx]; [in_voc|]); try contradiction.






Lemma var_train_incl : incl (trace (var_train r)) (var_train_vocabulary r).
Proof.
  unfold var_train, trace. simpl. rewrite ?app_nil_r.
  apply incl_app.
  - apply incl_flat_map. intros epoch. unfold var_epoch_calls, var_train_vocabulary. incl_voc.
  - unfold var_train_vocabulary. destruct (save_model r); [incl_voc|intros x []].
Qed.

Lemma simulation_incl (before : list segment) :
  incl (trace (simulation_cell_tail r before))
       (flat_map snd before ++ simulation_vocabulary).
Proof.
  unfold simulation_cell_tail, trace.
  destruct (Np.floordiv (n_frames r) (n_sims r)) as [step|]; simpl.
  - destruct (Np.arange 0 (n_frames r) step) as [idx|]; simpl;
      rewrite flat_map_app; simpl; rewrite ?app_nil_r.
    + apply incl_app; [apply incl_appl; apply incl_refl|].
      apply incl_appr. apply incl_cons; [in_voc|].
      apply incl_app; [apply incl_constant_map; in_voc|incl_voc].
    + apply incl_app; [apply incl_appl; apply incl_refl|].
      apply incl_appr. incl_voc.
  - rewrite flat_map_app. simpl. rewrite ?app_nil_r. apply incl_appl. apply incl_refl.
Qed.

Lemma ramachandran_incl : incl (trace (ramachandran_cell r)) ramachandran_vocabulary.
Proof.
  unfold ramachandran_cell, plot_ramachandran.
  destruct (Rama.energies (ref_counts r));
    [destruct (Rama.energies (sim_counts r))|]; unfold trace; incl_voc.
Qed.

Lemma var_padding_incl : incl (trace (var_padding r)) var_padding_vocabulary.
Proof.
  unfold var_padding, trace. simpl. destruct (n_frames r =? 0); simpl; incl_voc.
Qed.

End Runs.

(** ** Policies hold on every run *)

Section Policies.

Import Pipeline.

Variable r : run.

Ltac atom :=
  cbn;
  first [ exact I
        | reflexivity
        | split; [assumption | reflexivity]
        | repeat (first [left; reflexivity | right]); fail ].

Ltac check_calls := cbn; repeat (apply Forall_cons; [atom|]); apply Forall_nil.

Ltac by_vocabulary H := apply (incl_Forall (H r)).

Ltac each_cell :=
  lazymatch goal with
  | |- Forall _ (_ :: _) => apply Forall_cons; [try check_calls | each_cell]
  | |- Forall _ [] => apply Forall_nil
  end.



Lemma var_no_projection : Forall no_projection (trace (run_cells var_notebook r)).
Proof.
  apply run_cells_forall. unfold var_notebook.
  each_cell.
  - by_vocabulary var_padding_incl. check_calls.
  - by_vocabulary var_train_incl. unfold var_train_vocabulary.
    apply Forall_app. split; [check_calls|].
    destruct (save_model r); check_calls.
  - apply (incl_Forall (simulation_incl r [(DataLoad, var_load_calls)])). check_calls.
  - by_vocabulary ramachandran_incl. check_calls.
Qed.

(** What the policies say about the observations. *)




Lemma projections_none (s : Q) (tr : list call) :
  Forall no_projection tr -> projections s tr = 0.
Proof.
  induction 1 as [|c t Hc _ IH]; simpl; [reflexivity|].
  unfold projections in *. simpl.
  destruct c as [| | | | | |[reg|]| | |]; simpl in *; try exact IH; contradiction.
Qed.

End Policies.

(** ** Projection after every authored step *)

Section Projection.

Import Pipeline.

Variable s : Q.

Lemma projected_app (l1 l2 : list call) :
  closed_block s l1 ->
  projected_after_each_step s (l1 ++ l2) = projected_after_each_step s l2.
Proof.
  unfold closed_block.
  induction l1 as [|c t IH]; intros Hc; [reflexivity|].
  destruct c; cbn [app projected_after_each_step] in *;
    try (apply IH; exact Hc).
  - (* a torch call *)
    apply andb_true_iff in Hc. destruct Hc as [Hstep Hrest].
    rewrite (IH Hrest).
    destruct (String.eqb fn "step"); [|reflexivity].
    destruct t as [|c' t']; [discriminate|].
    cbn [app] in *. rewrite Hstep. reflexivity.
  - (* a delegated loop *)
    apply andb_true_iff in Hc. destruct Hc as [Hk Hrest].
    rewrite Hk, (IH Hrest). reflexivity.
Qed.

Lemma closed_block_app (l1 l2 : list call) :
  closed_block s l1 -> closed_block s l2 -> closed_block s (l1 ++ l2).
Proof.
  intros H1 H2. unfold closed_block. rewrite <- app_assoc.
  rewrite (projected_app _ H1). exact H2.
Qed.

Lemma closed_block_flat_map {A : Type} (f : A -> list call) (l : list A) :
  (forall a, closed_block s (f a)) -> closed_block s (flat_map f l).
Proof.
  intros H. induction l as [|a t IH]; simpl; [reflexivity|].
  apply closed_block_app; [apply H|exact IH].
Qed.

Lemma closed_block_projected (l : list call) :
  closed_block s l -> projected_after_each_step s l = true.
Proof.
  intros H. rewrite <- (app_nil_r l). rewrite (projected_app _ H). reflexivity.
Qed.

End Projection.

Section EmbTraining.

Import Pipeline.

Variable r : run.

Lemma emb_batch_closed (num : nat) :
  closed_block (lipschitz_strength r) (emb_batch_calls r num).
Proof.
  unfold closed_block, emb_batch_calls.
  destruct (verbose r && ((num + 1) mod Train.batch_freq =? 0));
    cbn; rewrite Qeq_bool_refl; reflexivity.
Qed.

Lemma emb_epoch_end_closed (epoch : nat) :
  closed_block (lipschitz_strength r) (emb_epoch_end r epoch).
Proof.
  unfold closed_block, emb_epoch_end.
  destruct (verbose r && (epoch mod Train.epoch_freq =? 0)); reflexivity.
Qed.

Lemma emb_epochs_closed (epochs : list nat) :
  closed_block (lipschitz_strength r) (fst (emb_epochs r epochs)).
Proof.
  induction epochs as [|epoch rest IH]; simpl; [reflexivity|].
  destruct (n_batches r =? 0); simpl.
  - apply closed_block_flat_map. apply emb_batch_closed.
  - destruct (emb_epochs r rest) as [cs e]. simpl in *.
    apply closed_block_app; [apply closed_block_flat_map; apply emb_batch_closed|].
    apply closed_block_app; [apply emb_epoch_end_closed|exact IH].
Qed.

Lemma emb_train_projected :
  projected_after_each_step (lipschitz_strength r) (trace (emb_train r)) = true.
Proof.
  apply closed_block_projected. unfold emb_train.
  pose proof (emb_epochs_closed (seq 1 (num_epochs r))) as Hcs.
  destruct (emb_epochs r (seq 1 (num_epochs r))) as [cs e]. simpl in Hcs.
  destruct e; unfold trace; simpl; rewrite ?app_nil_r; [exact Hcs|].
  apply closed_block_app; [exact Hcs|].
  destruct (save_model r); reflexivity.
Qed.



Lemma var_epochs_delegated (k : nat) : forall start,
  delegated_epochs (flat_map (var_epoch_calls r) (seq start k)) = k.
Proof.
  unfold delegated_epochs.
  induction k as [|k IH]; intros start; [reflexivity|].
  cbn [seq flat_map]. rewrite map_app, list_sum_app, IH.
  unfold var_epoch_calls. cbn. lia.
Qed.

Lemma var_train_delegated :
  delegated_epochs (trace (var_train r)) = num_epochs r.
Proof.
  unfold var_train, trace. cbn [segs ok flat_map snd]. rewrite app_nil_r.
  unfold delegated_epochs. rewrite map_app, list_sum_app.
  fold (delegated_epochs (flat_map (var_epoch_calls r) (seq 1 (num_epochs r)))).
  rewrite var_epochs_delegated.
  destruct (save_model r); cbn; lia.
Qed.

End EmbTraining.

(** ** The stages of a completed run *)

Section Stages.

Import Pipeline.

Variable r : run.

Hypothesis sims_in_range : 1 <= n_sims r <= n_frames r.
Hypothesis ref_populated : 2 <= Rama.populated (ref_counts r).
Hypothesis sim_populated : 2 <= Rama.populated (sim_counts r).











End Stages.

(** * The training claim *)

(** C1, as stated, fails on the variable-size notebook: with 1024 frames its
    training cell leaves the batch loops of its 15 epochs to [dataset_loss],
    makes no projection call and hands none to [dataset_loss]. *)
Lemma variable_training_without_projection :
  let tr := Pipeline.trace (Pipeline.var_train
                              (Pipeline.var_defaults 1024 [[768; 256]] [[600; 400]])) in
  Pipeline.delegated_epochs tr = 15 /\
  Pipeline.projections (4 # 1) tr = 0 /\
  Pipeline.projected_after_each_step (4 # 1) tr = false.
Proof. vm_compute. repeat split; reflexivity. Qed.

(** C1, amended.  In the CGSchNet-embeddings notebook, whenever every epoch
    has a batch, the training loop runs to its end and is force matching:
    each batch contributes one optimizer step on the gradients of
    [ForceLoss(pred_force, force)] of that batch alone, followed by the
    Lipschitz projection of strength 4.0 before the next batch, and each epoch
    ends with a scheduler step; in its call sequence every optimizer step is
    directly followed by that projection.  The variable-size notebook
    delegates the batch loop of each of its [num_epochs] epochs to
    [dataset_loss]; it never calls the projection and hands none to
    [dataset_loss]. *)
Theorem force_matching_with_projection {L : Train.Library}
    (arch : Train.Arch) (opt : Train.Optimizer) (verbose : bool)
    (trainloader : nat -> list Train.Batch) :
  (forall epoch, trainloader epoch <> []) ->
  (exists s',
      Train.train Train.lipschitz_strength verbose Train.num_epochs trainloader
                  (Train.initial_state arch opt) = Some s' /\
      (Train.net s', Train.optimizer s')
      = Train.force_matching (4 # 1) 5 trainloader
          (Train.CGnet arch Train.ForceLoss, opt)) /\
  (forall frames reference simulated,
      Pipeline.projected_after_each_step (4 # 1)
        (Pipeline.trace (Pipeline.emb_train
                           (Pipeline.emb_defaults frames reference simulated))) = true) /\
  (forall r,
      Forall Pipeline.no_projection
        (Pipeline.trace (Pipeline.run_cells Pipeline.var_notebook r)) /\
      Pipeline.delegated_epochs (Pipeline.trace (Pipeline.var_train r))
      = Pipeline.num_epochs r).
Proof.
  intros Hne. split; [|split].
  - unfold Train.train.
    destruct (@train_refines L Train.lipschitz_strength verbose trainloader
                (seq 1 Train.num_epochs) (Train.initial_state arch opt))
      as [s' [Hs' Hmo]].
    + intros epoch _. apply Hne.
    + simpl. apply Train.criterion_CGnet.
    + exists s'. split; [exact Hs'|exact Hmo].
  - intros frames reference simulated.
    exact (emb_train_projected (Pipeline.emb_defaults frames reference simulated)).
  - intros r. split.
    + apply var_no_projection.
    + apply var_train_delegated.
Qed.

(** The one-weight model trained on two batches per epoch. *)
Lemma force_matching_with_projection_witness :
  (exists s',
      Train.train (L := Toy.library) Train.lipschitz_strength true Train.num_epochs
                  Toy.loader (Train.initial_state (L := Toy.library) 1%Z 1%Z) = Some s' /\
      (Train.net s', Train.optimizer s')
      = Train.force_matching (L := Toy.library) (4 # 1) 5 Toy.loader
          (Train.CGnet (Library := Toy.library) 1%Z Train.ForceLoss, 1%Z)) /\
  (forall frames reference simulated,
      Pipeline.projected_after_each_step (4 # 1)
        (Pipeline.trace (Pipeline.emb_train
                           (Pipeline.emb_defaults frames reference simulated))) = true) /\
  (forall r,
      Forall Pipeline.no_projection
        (Pipeline.trace (Pipeline.run_cells Pipeline.var_notebook r)) /\
      Pipeline.delegated_epochs (Pipeline.trace (Pipeline.var_train r))
      = Pipeline.num_epochs r).
Proof.
  apply (force_matching_with_projection (L := Toy.library) 1%Z 1%Z true Toy.loader).
  intros epoch. unfold Toy.loader. discriminate.
Defined.

(** * Locally authored transformations *)

(** C2, as stated, fails: [plot_ramachandran], written out in both notebooks,
    converts histogram counts into free energies with arithmetic of its own.
    A histogram with 1 and 3 samples in two bins becomes the energies
    [0.6 ln 3 + 1e-6] and [1e-6]. *)
Lemma plot_ramachandran_authored_locally :
  Rama.energies [[1; 3]] = Some [[0.6 * ln 3 + 1e-6; 1e-6]]%R.
Proof.
  assert (Hpop : 2 <= Rama.populated [[1; 3]]) by (vm_compute; lia).
  destruct (energies_populated [[1; 3]] Hpop)
    as [m [HE [[cm [Hcm [Hcmnz Hcmeq]]] [Hle Hform]]]].
  rewrite HE. clear HE.
  change (Rama.np_sum [[1; 3]]) with 4 in *.
  change (concat [[1; 3]]) with [1; 3] in *.
  assert (H1 : INR 1 = 1%R) by reflexivity.
  assert (H3 : INR 3 = 3%R) by (simpl; lra).
  assert (H4 : INR 4 = 4%R) by (simpl; lra).
  assert (Hq : ln (1 / 4) = (- ln 4)%R).
  { unfold Rdiv. rewrite Rmult_1_l. apply ln_Rinv. lra. }
  assert (Ht : ln (3 / 4) = (ln 3 - ln 4)%R).
  { unfold Rdiv. rewrite ln_mult, ln_Rinv by (try apply Rinv_0_lt_compat; lra). lra. }
  assert (Hpos : (0 < ln 3)%R).
  { rewrite <- ln_1. apply ln_increasing; lra. }
  assert (Hm : m = (-0.6 * ln (3 / 4))%R).
  { pose proof (Hle 3 ltac:(simpl; tauto) ltac:(lia)) as Hle3.
    rewrite (Hform 3 ltac:(simpl; tauto) ltac:(lia)), H3, H4 in Hle3.
    destruct Hcm as [<-|[<-|[]]].
    - rewrite (Hform 1 ltac:(simpl; tauto) ltac:(lia)), H1, H4 in Hcmeq. lra.
    - rewrite (Hform 3 ltac:(simpl; tauto) ltac:(lia)), H3, H4 in Hcmeq. lra. }
  cbn [map]. unfold Rama.free_energy. cbn [Nat.eqb].
  rewrite H1, H3, H4, Hm, Hq, Ht.
  do 3 f_equal; [lra|f_equal; lra].
Qed.

(** C2, amended.  [plot_ramachandran] converts the counts of a histogram to
    free energies: for a histogram with two or more populated bins an empty
    bin gets 0 and a bin holding [c] of [total] samples gets
    [-0.6 ln(c/total) - m + 1e-6], where [m] is the least
    [-0.6 ln(c/total)] over the populated bins. *)
Theorem plot_ramachandran_free_energies (counts : Rama.grid nat) :
  2 <= Rama.populated counts ->
  exists m,
    Rama.energies counts
    = Some (map (map (Rama.free_energy (Rama.np_sum counts) m)) counts) /\
    (exists c, In c (concat counts) /\ c <> 0 /\
               m = (-0.6 * ln (INR c / INR (Rama.np_sum counts)))%R) /\
    (forall c, In c (concat counts) -> c <> 0 ->
               (m <= -0.6 * ln (INR c / INR (Rama.np_sum counts)))%R).
Proof.
  intros Hpop.
  destruct (energies_populated counts Hpop)
    as [m [HE [[cm [Hcm [Hcmnz Hcmeq]]] [Hle Hform]]]].
  exists m. split; [exact HE|]. split.
  - exists cm. split; [assumption|]. split; [assumption|].
    rewrite <- Hcmeq. apply Hform; assumption.
  - intros c Hc Hcnz. rewrite <- (Hform c Hc Hcnz). apply Hle; assumption.
Qed.

(** A histogram of two bins holding 1 and 3 samples. *)
Lemma plot_ramachandran_free_energies_witness :
  let counts : Rama.grid nat := [[1; 3]] in
  exists m,
    Rama.energies counts
    = Some (map (map (Rama.free_energy (Rama.np_sum counts) m)) counts) /\
    (exists c, In c (concat counts) /\ c <> 0 /\
               m = (-0.6 * ln (INR c / INR (Rama.np_sum counts)))%R) /\
    (forall c, In c (concat counts) -> c <> 0 ->
               (m <= -0.6 * ln (INR c / INR (Rama.np_sum counts)))%R).
Proof.
  intros counts. apply (plot_ramachandran_free_energies counts). vm_compute. lia.
Defined.

(** * The order of the stages *)




(** * Files *)



(** * Further properties of the authored code *)

(** ** Which frames start the simulations *)

Section InitialFrames.

Lemma ceil_div_zero (step : nat) : 0 < step -> Sim.ceil_div 0 step = 0.
Proof. intros Hs. unfold Sim.ceil_div. apply Nat.div_small. lia. Qed.

Lemma ceil_div_succ (d step : nat) :
  0 < step -> 0 < d -> Sim.ceil_div d step = S (Sim.ceil_div (d - step) step).
Proof.
  intros Hs Hd. unfold Sim.ceil_div.
  destruct (Nat.le_gt_cases step d) as [Hle|Hgt].
  - replace (d + step - 1) with ((d - step + step - 1) + 1 * step) by lia.
    rewrite Nat.div_add by lia. lia.
  - replace (d - step) with 0 by lia.
    rewrite (Nat.div_small (0 + step - 1)) by lia.
    replace (d + step - 1) with ((d - 1) + 1 * step) by lia.
    rewrite Nat.div_add by lia. rewrite Nat.div_small by lia. reflexivity.
Qed.

(** The loop of [np.arange] in closed form. *)
Lemma arange_loop_closed (fuel : nat) : forall i stop step,
  0 < step -> stop - i <= fuel ->
  Np.arange_loop fuel i stop step
  = map (fun k => i + k * step) (seq 0 (Sim.ceil_div (stop - i) step)).
Proof.
  induction fuel as [|fuel IH]; intros i stop step Hs Hf; simpl.
  - replace (stop - i) with 0 by lia. rewrite ceil_div_zero by assumption. reflexivity.
  - destruct (Nat.ltb_spec i stop) as [Hlt|Hge].
    + rewrite (@ceil_div_succ (stop - i) step) by lia.
      cbn [seq map]. f_equal; [lia|].
      rewrite IH by lia. rewrite <- seq_shift, map_map.
      replace (stop - (i + step)) with (stop - i - step) by lia.
      apply map_ext. intros k. simpl. lia.
    + replace (stop - i) with 0 by lia. rewrite ceil_div_zero by assumption. reflexivity.
Qed.

Lemma concat_singletons {A B : Type} (g : A -> B) (l : list A) :
  concat (map (fun a => [g a]) l) = map g l.
Proof. induction l as [|a t IH]; simpl; [reflexivity|]. rewrite IH. reflexivity. Qed.

Lemma initial_coords_frames {A : Type} (coords : list (list (list A))) (N n_sims : nat) :
  Np.has_shape3 N 5 3 coords ->
  1 <= n_sims <= N ->
  Sim.initial_coords coords n_sims
  = Some (map (fun k => nth (k * (N / n_sims)) coords [])
              (seq 0 (Sim.ceil_div N (N / n_sims)))).
Proof.
  intros [Hlen Hframes] Hn.
  assert (Hs : 0 < N / n_sims) by (apply Nat.div_str_pos; lia).
  unfold Sim.initial_coords, Np.floordiv, Np.arange. rewrite Hlen.
  destruct (Nat.eqb_spec n_sims 0) as [|_]; [lia|]. simpl bind_opt.
  destruct (Nat.eqb_spec (N / n_sims) 0) as [|_]; [lia|]. simpl bind_opt.
  rewrite arange_loop_closed by lia.
  replace (N - 0) with N by lia.
  set (idx := map (fun k => 0 + k * (N / n_sims)) (seq 0 (Sim.ceil_div N (N / n_sims)))).
  assert (Hbound : Forall (fun i => i < N) idx).
  { pose proof (arange_loop_bound N 0 N (N / n_sims)) as Hb.
    rewrite arange_loop_closed in Hb by lia.
    replace (N - 0) with N in Hb by lia. exact Hb. }
  rewrite (mapM_pointwise
             (fun i => (fr <- Np.getitem coords i ;; Np.reshape_m1_5_3 fr)%opt)
             (fun i => [nth i coords []])).
  - simpl bind_opt. f_equal. rewrite concat_singletons. unfold idx.
    rewrite map_map. apply map_ext. intros k. reflexivity.
  - eapply Forall_impl; [|exact Hbound].
    intros i Hi. cbv beta in Hi. unfold Np.getitem.
    rewrite (nth_error_nth' coords [] (n:=i)) by lia. simpl.
    apply reshape_single_frame.
    rewrite Forall_forall in Hframes.
    destruct (Hframes (nth i coords [])) as [Hb Hr]; [apply nth_In; lia|].
    split; assumption.
Qed.


End InitialFrames.

(** X1.  For frames of 5 beads the initial-coordinate construction raises
    exactly when [n_sims] is zero or exceeds the number of frames: the step
    [N // n_sims] is then undefined or zero. *)
Theorem initial_coords_raises_iff {A : Type}
    (coords : list (list (list A))) (N n_sims : nat) :
  Np.has_shape3 N 5 3 coords ->
  (Sim.initial_coords coords n_sims = None <-> n_sims = 0 \/ N < n_sims).
Proof.
  intros Hshape. split.
  - intros Hnone.
    destruct (Nat.eq_dec n_sims 0) as [|Hn0]; [left; assumption|].
    destruct (Nat.lt_ge_cases N n_sims) as [|Hge]; [right; assumption|exfalso].
    rewrite (initial_coords_frames Hshape) in Hnone by lia. discriminate.
  - destruct Hshape as [Hlen _].
    unfold Sim.initial_coords, Np.floordiv, Np.arange. rewrite Hlen.
    intros [->|Hlt]; [reflexivity|].
    destruct (Nat.eqb_spec n_sims 0) as [|_]; [reflexivity|]. simpl bind_opt.
    rewrite (Nat.div_small N n_sims) by assumption. reflexivity.
Qed.

(** Four frames: no simulation requested, and more simulations than frames. *)
Lemma initial_coords_raises_iff_witness :
  let coords := repeat (repeat [1; 2; 3]%Z 5) 4 in
  Sim.initial_coords coords 0 = None /\ Sim.initial_coords coords 5 = None.
Proof.
  intros coords.
  assert (Hshape : Np.has_shape3 4 5 3 coords).
  { split; [reflexivity|]. repeat constructor. }
  split; apply (proj2 (initial_coords_raises_iff 0 Hshape)) ||
         apply (proj2 (initial_coords_raises_iff 5 Hshape)); lia.
Defined.

(** X2.  When it succeeds, the construction returns the frames at the
    indices [0, step, 2 step, ...] below [N], in that order, with
    [step = N // n_sims]: evenly spaced frames, the first of them frame 0. *)
Theorem initial_coords_evenly_spaced {A : Type}
    (coords : list (list (list A))) (N n_sims : nat) :
  Np.has_shape3 N 5 3 coords ->
  1 <= n_sims <= N ->
  Sim.initial_coords coords n_sims
  = Some (map (fun k => nth (k * (N / n_sims)) coords [])
              (seq 0 (Sim.ceil_div N (N / n_sims)))) /\
  Forall (fun k => k * (N / n_sims) < N) (seq 0 (Sim.ceil_div N (N / n_sims))).
Proof.
  intros Hshape Hn. split; [apply initial_coords_frames; assumption|].
  assert (Hs : 0 < N / n_sims) by (apply Nat.div_str_pos; lia).
  pose proof (arange_loop_bound N 0 N (N / n_sims)) as Hb.
  rewrite arange_loop_closed in Hb by lia.
  replace (N - 0) with N in Hb by lia.
  rewrite Forall_forall in *. intros k Hk.
  apply (Hb (0 + k * (N / n_sims))).
  apply (in_map (fun k => 0 + k * (N / n_sims))). exact Hk.
Qed.

(** Ten numbered frames and three simulations: frames 0, 3, 6 and 9. *)
Lemma initial_coords_evenly_spaced_witness :
  let coords := map (fun i => repeat (repeat (Z.of_nat i) 3) 5) (seq 0 10) in
  Sim.initial_coords coords 3
  = Some (map (fun k => nth (k * (10 / 3)) coords []) (seq 0 (Sim.ceil_div 10 (10 / 3)))) /\
  Forall (fun k => k * (10 / 3) < 10) (seq 0 (Sim.ceil_div 10 (10 / 3))).
Proof.
  intros coords.
  assert (Hshape : Np.has_shape3 10 5 3 coords).
  { split; [reflexivity|]. repeat constructor. }
  apply (initial_coords_evenly_spaced Hshape). lia.
Defined.



(** ** The truncation loop on arrays of any shape *)

Section TruncationGeneral.

Context {A : Type}.
Variables (coords forces : list (list (list A))) (embeddings : list (list Z)).

Lemma truncate_example_some (acc : Dataset.varied A) (num : nat) (len : Z) :
  num < length coords -> num < length forces -> num < length embeddings ->
  Dataset.truncate_example coords forces embeddings acc (num, len)
  = Some (Dataset.appended coords forces embeddings acc [(num, len)]).
Proof.
  intros Hc Hf He. unfold Dataset.truncate_example, Np.getitem.
  rewrite (nth_error_nth' coords [] Hc), (nth_error_nth' forces [] Hf),
    (nth_error_nth' embeddings [] He).
  reflexivity.
Qed.

Lemma truncate_loop_some (items : list (nat * Z)) : forall acc,
  Forall (fun it => fst it < length coords /\ fst it < length forces /\
                    fst it < length embeddings) items ->
  Dataset.for_each (Dataset.truncate_example coords forces embeddings) items acc
  = Some (Dataset.appended coords forces embeddings acc items).
Proof.
  induction items as [|[num len] rest IH]; intros acc Hall.
  - simpl. unfold Dataset.appended. simpl. rewrite !app_nil_r. destruct acc; reflexivity.
  - inversion_clear Hall as [|? ? [Hc [Hf He]] Hrest]. simpl in Hc, Hf, He.
    cbn [Dataset.for_each].
    rewrite truncate_example_some by assumption.
    rewrite IH by assumption.
    unfold Dataset.appended. simpl. rewrite <- !app_assoc. reflexivity.
Qed.

(** A loop that ran to its end found every index it used in [forces]. *)
Lemma truncate_loop_indices (items : list (nat * Z)) : forall acc v,
  Dataset.for_each (Dataset.truncate_example coords forces embeddings) items acc = Some v ->
  Forall (fun it => fst it < length forces) items.
Proof.
  induction items as [|[num len] rest IH]; intros acc v Hv; [constructor|].
  cbn [Dataset.for_each] in Hv.
  destruct (Dataset.truncate_example coords forces embeddings acc (num, len))
    as [acc'|] eqn:Hstep; [|discriminate].
  constructor; [|eapply IH; eassumption].
  simpl. unfold Dataset.truncate_example, Np.getitem in Hstep.
  destruct (nth_error coords num); [|discriminate]. simpl in Hstep.
  destruct (nth_error forces num) eqn:Hf; [|discriminate].
  apply nth_error_Some. congruence.
Qed.

End TruncationGeneral.

Lemma take_upto_firstn {A : Type} (len : nat) (l : list A) :
  Np.take_upto (Z.of_nat len) l = firstn len l.
Proof.
  unfold Np.take_upto. destruct (Z.leb_spec 0 (Z.of_nat len)); [|lia].
  rewrite Nat2Z.id. reflexivity.
Qed.

(** X4.  With a generator that meets the contract of [randint], the dataset
    construction raises exactly when [forces] has fewer frames than [coords]:
    the loop runs over the frames of [coords] and indexes [forces] with the
    same number. *)
Theorem variable_dataset_raises_iff {G A : Type} `{NumpyRandom G}
    (coords forces : list (list (list A))) (g : G) :
  randint_contract G ->
  (Dataset.variable_dataset coords forces g = None <-> length forces < length coords).
Proof.
  intros Hrng.
  destruct (Hrng 2%Z 6%Z (length coords) (seed_state 1133)) as [Hlen _].
  unfold Dataset.variable_dataset, nb_bind, np_random_seed, np_random_randint, nb_lift, nb_ret.
  destruct (randint 2 6 (length coords) (seed_state 1133)) as [lens g1]. simpl in Hlen.
  unfold Dataset.truncate_all.
  destruct (Dataset.for_each _ (Dataset.enumerate lens) Dataset.empty) as [v|] eqn:Hloop.
  - split; [discriminate|]. intros Hshort. exfalso.
    pose proof (truncate_loop_indices _ _ _ _ _ Hloop) as Hidx.
    destruct (nth_error lens (length forces)) as [z|] eqn:Hz;
      [|apply nth_error_None in Hz; lia].
    rewrite Forall_forall in Hidx.
    specialize (Hidx _ (nth_error_In _ _ (enumerate_nth lens (length forces) Hz))).
    simpl in Hidx. lia.
  - split; [intros _|reflexivity].
    destruct (Nat.lt_ge_cases (length forces) (length coords)) as [|Hge]; [assumption|].
    rewrite truncate_loop_some in Hloop; [discriminate|].
    eapply Forall_impl; [|apply enumerate_bound].
    intros it Hit. cbv beta in Hit. rewrite embeddings_length. lia.
Qed.

(** Three frames of coordinates against two frames of forces. *)
Lemma variable_dataset_raises_iff_witness :
  Dataset.variable_dataset (G := Z)
    (repeat (repeat [0; 0; 0]%Z 5) 3) (repeat (repeat [0; 0; 0]%Z 5) 2) 7%Z = None.
Proof.
  apply (proj2 (variable_dataset_raises_iff (H := lcg_random) _ _ 7%Z lcg_contract)).
  simpl. lia.
Defined.

Lemma variable_dataset_prefixes {G A : Type} `{NumpyRandom G}
    (coords forces : list (list (list A))) (g : G) :
  randint_contract G ->
  length coords <= length forces ->
  exists random_lengths v g',
    Dataset.variable_dataset coords forces g = Some ((random_lengths, v), g') /\
    length random_lengths = length coords /\
    forall num, num < length coords ->
      exists len : nat,
        nth_error random_lengths num = Some (Z.of_nat len) /\
        2 <= len <= 5 /\
        nth_error (Dataset.varied_coords v) num = Some (firstn len (nth num coords [])) /\
        nth_error (Dataset.varied_forces v) num = Some (firstn len (nth num forces [])) /\
        nth_error (Dataset.varied_embeddings v) num = Some (firstn len [6; 7; 6; 6; 7]%Z).
Proof.
  intros Hrng Hf.
  destruct (Hrng 2%Z 6%Z (length coords) (seed_state 1133)) as [Hlen Hrange].
  specialize (Hrange ltac:(lia)).
  unfold Dataset.variable_dataset, nb_bind, np_random_seed, np_random_randint, nb_lift, nb_ret.
  destruct (randint 2 6 (length coords) (seed_state 1133)) as [lens g1].
  simpl in Hlen, Hrange.
  unfold Dataset.truncate_all.
  rewrite truncate_loop_some.
  2:{ eapply Forall_impl; [|apply enumerate_bound].
      intros it Hit. cbv beta in Hit. rewrite embeddings_length. lia. }
  unfold Dataset.appended. simpl.
  eexists lens, _, g1. split; [reflexivity|]. split; [assumption|].
  intros num Hnum. simpl.
  destruct (nth_error lens num) as [z|] eqn:Hz;
    [|apply nth_error_None in Hz; lia].
  rewrite Forall_forall in Hrange.
  pose proof (Hrange z (nth_error_In _ _ Hz)) as Hzr.
  assert (Hex : exists len : nat, z = Z.of_nat len /\ 2 <= len <= 5)
    by (exists (Z.to_nat z); lia).
  destruct Hex as [len [-> Hlen25]].
  exists len. split; [reflexivity|]. split; [lia|].
  rewrite !nth_error_map, (enumerate_nth lens num Hz). simpl.
  rewrite !take_upto_firstn.
  rewrite (embeddings_rows (length coords) (nth num (Emb.embeddings (length coords)) []))
    by (apply nth_In; rewrite embeddings_length; assumption).
  repeat split.
Qed.

(** X5.  Whatever the shapes of the arrays, as long as [forces] has a frame
    for every frame of [coords], example [num] consists of the first [length]
    beads of [coords[num]], the first [length] beads of [forces[num]] and the
    first [length] codes of (6, 7, 6, 6, 7), with [length] between 2 and 5:
    truncation keeps a prefix, in order, and nothing else. *)
Theorem truncation_keeps_prefixes {G A : Type} `{NumpyRandom G}
    (coords forces : list (list (list A))) (g : G) :
  randint_contract G ->
  length coords <= length forces ->
  exists random_lengths v g',
    Dataset.variable_dataset coords forces g = Some ((random_lengths, v), g') /\
    length random_lengths = length coords /\
    forall num, num < length coords ->
      exists len : nat,
        nth_error random_lengths num = Some (Z.of_nat len) /\
        2 <= len <= 5 /\
        nth_error (Dataset.varied_coords v) num = Some (firstn len (nth num coords [])) /\
        nth_error (Dataset.varied_forces v) num = Some (firstn len (nth num forces [])) /\
        nth_error (Dataset.varied_embeddings v) num = Some (firstn len [6; 7; 6; 6; 7]%Z).
Proof. apply variable_dataset_prefixes. Qed.

(** Two frames of three beads: fewer beads than codes. *)
Lemma truncation_keeps_prefixes_witness :
  let coords := repeat (repeat [0; 0; 0]%Z 3) 2 in
  exists random_lengths v g',
    Dataset.variable_dataset coords coords 0%Z = Some ((random_lengths, v), g') /\
    length random_lengths = length coords /\
    forall num, num < length coords ->
      exists len : nat,
        nth_error random_lengths num = Some (Z.of_nat len) /\
        2 <= len <= 5 /\
        nth_error (Dataset.varied_coords v) num = Some (firstn len (nth num coords [])) /\
        nth_error (Dataset.varied_forces v) num = Some (firstn len (nth num coords [])) /\
        nth_error (Dataset.varied_embeddings v) num = Some (firstn len [6; 7; 6; 6; 7]%Z).
Proof.
  intros coords.
  apply (truncation_keeps_prefixes (H := lcg_random) coords coords 0%Z lcg_contract).
  lia.
Defined.

(** X6.  For coordinates of shape (N, b, d), example [num] has
    [min(length, b)] beads of coordinates but [length] embedding codes: the
    two agree exactly when the drawn length does not exceed the number of
    beads in the data. *)
Theorem truncated_bead_counts {G A : Type} `{NumpyRandom G}
    (coords forces : list (list (list A))) (N b d : nat) (g : G) :
  randint_contract G ->
  Np.has_shape3 N b d coords ->
  N <= length forces ->
  exists random_lengths v g',
    Dataset.variable_dataset coords forces g = Some ((random_lengths, v), g') /\
    forall num, num < N ->
      exists (len : nat) c e,
        nth_error random_lengths num = Some (Z.of_nat len) /\
        nth_error (Dataset.varied_coords v) num = Some c /\
        nth_error (Dataset.varied_embeddings v) num = Some e /\
        length c = Nat.min len b /\ length e = len /\
        (length c = length e <-> len <= b).
Proof.
  intros Hrng [HN Hframes] Hf. subst N.
  destruct (variable_dataset_prefixes coords forces g Hrng Hf)
    as [lens [v [g' [Hv [_ Hnum]]]]].
  exists lens, v, g'. split; [exact Hv|].
  intros num Hlt. destruct (Hnum num Hlt) as [len [Hl [Hr [Hc [_ He]]]]].
  exists len, (firstn len (nth num coords [])), (firstn len [6; 7; 6; 6; 7]%Z).
  split; [exact Hl|]. split; [exact Hc|]. split; [exact He|].
  rewrite Forall_forall in Hframes.
  destruct (Hframes (nth num coords [])) as [Hb _]; [apply nth_In; assumption|].
  rewrite !length_firstn, Hb. simpl length.
  split; [reflexivity|]. split; lia.
Qed.

(** Two frames of three beads. *)
Lemma truncated_bead_counts_witness :
  let coords := repeat (repeat [0; 0; 0]%Z 3) 2 in
  exists random_lengths v g',
    Dataset.variable_dataset coords coords 0%Z = Some ((random_lengths, v), g') /\
    forall num, num < 2 ->
      exists (len : nat) c e,
        nth_error random_lengths num = Some (Z.of_nat len) /\
        nth_error (Dataset.varied_coords v) num = Some c /\
        nth_error (Dataset.varied_embeddings v) num = Some e /\
        length c = Nat.min len 3 /\ length e = len /\
        (length c = length e <-> len <= 3).
Proof.
  intros coords.
  assert (Hshape : Np.has_shape3 2 3 3 coords).
  { split; [reflexivity|]. repeat constructor. }
  apply (truncated_bead_counts (H := lcg_random) coords 0%Z lcg_contract Hshape).
  simpl. lia.
Defined.

(** ** More on the energies of a histogram *)

Section Populations.

Local Open Scope R_scope.

Lemma sum_of_ratios (T : R) (l : list nat) :
  fold_right Rplus 0 (map (fun c => INR c / T) l) = INR (list_sum l) / T.
Proof.
  induction l as [|c t IH]; simpl fold_right; simpl list_sum.
  - simpl INR. unfold Rdiv. ring.
  - rewrite IH, plus_INR. unfold Rdiv. ring.
Qed.

Lemma np_sum_scaled (k : nat) (counts : Rama.grid nat) :
  Rama.np_sum (Analysis.scale_counts k counts) = (k * Rama.np_sum counts)%nat.
Proof.
  rewrite !np_sum_concat. unfold Analysis.scale_counts. rewrite concat_grid.
  induction (concat counts) as [|c t IH]; simpl; [lia|]. rewrite IH. lia.
Qed.

Lemma populations_scaled (k : nat) (counts : Rama.grid nat) :
  (0 < k)%nat ->
  Rama.populations (Analysis.scale_counts k counts) = Rama.populations counts.
Proof.
  intros Hk. unfold Rama.populations. rewrite np_sum_scaled.
  unfold Analysis.scale_counts. rewrite map_map. apply map_ext. intros row.
  rewrite map_map. apply map_ext. intros c.
  rewrite !mult_INR.
  assert (Hk' : INR k <> 0) by (apply not_0_INR; lia).
  destruct (Nat.eq_dec (Rama.np_sum counts) 0) as [->|HT].
  - simpl INR. rewrite Rmult_0_r. unfold Rdiv. rewrite Rinv_0. ring.
  - assert (HT' : INR (Rama.np_sum counts) <> 0) by (apply not_0_INR; assumption).
    field. split; assumption.
Qed.

End Populations.

(** X7.  For a histogram that holds at least one sample, the populations are
    fractions between 0 and 1 that sum to 1. *)
Theorem populations_normalised (counts : Rama.grid nat) :
  0 < Rama.np_sum counts ->
  Analysis.grid_sum (Rama.populations counts) = 1%R /\
  Forall (Forall (fun p => (0 <= p <= 1)%R)) (Rama.populations counts).
Proof.
  intros HT.
  assert (HT' : (0 < INR (Rama.np_sum counts))%R) by (apply lt_0_INR; assumption).
  split.
  - unfold Analysis.grid_sum, Rama.populations. rewrite concat_grid, sum_of_ratios.
    rewrite <- np_sum_concat. field. lra.
  - unfold Rama.populations.
    apply Forall_map_in. intros row Hrow. apply Forall_map_in. intros c Hc.
    pose proof (in_le_sum _ _ (in_grid counts row c Hrow Hc)) as Hle.
    rewrite <- np_sum_concat in Hle. apply le_INR in Hle.
    pose proof (pos_INR c) as Hc0.
    split.
    + apply Rmult_le_pos; [assumption|]. left. apply Rinv_0_lt_compat. assumption.
    + apply (Rmult_le_reg_r (INR (Rama.np_sum counts))); [assumption|].
      unfold Rdiv. rewrite Rmult_assoc, Rinv_l by lra. lra.
Qed.

(** A histogram of two by two bins with four samples. *)
Lemma populations_normalised_witness :
  let counts : Rama.grid nat := [[1; 0]; [2; 1]] in
  Analysis.grid_sum (Rama.populations counts) = 1%R /\
  Forall (Forall (fun p => (0 <= p <= 1)%R)) (Rama.populations counts).
Proof.
  intros counts. apply (populations_normalised counts). vm_compute. lia.
Defined.

(** X8.  The energies depend on the proportions only: the histogram of [k]
    copies of the same samples, [k >= 1], gives the same result, be it an
    array of energies or the exception. *)
Theorem energies_scale_invariant (k : nat) (counts : Rama.grid nat) :
  0 < k ->
  Rama.energies (Analysis.scale_counts k counts) = Rama.energies counts.
Proof.
  intros Hk. unfold Rama.energies. rewrite populations_scaled by assumption. reflexivity.
Qed.

(** Three copies of a histogram with two populated bins. *)
Lemma energies_scale_invariant_witness :
  Rama.energies (Analysis.scale_counts 3 [[1; 3]; [0; 0]]) = Rama.energies [[1; 3]; [0; 0]].
Proof. apply energies_scale_invariant. lia. Defined.

(** X9.  In a histogram with two or more populated bins a bin with more
    samples never gets a higher energy than a populated bin with fewer, and a
    bin holding the largest count gets exactly 1e-6. *)
Theorem energies_follow_counts (counts : Rama.grid nat) :
  2 <= Rama.populated counts ->
  exists m,
    Rama.energies counts
    = Some (map (map (Rama.free_energy (Rama.np_sum counts) m)) counts) /\
    (forall c c', In c (concat counts) -> In c' (concat counts) -> 0 < c <= c' ->
       (Rama.free_energy (Rama.np_sum counts) m c'
        <= Rama.free_energy (Rama.np_sum counts) m c)%R) /\
    (forall cmax, In cmax (concat counts) ->
       (forall c, In c (concat counts) -> c <= cmax) ->
       Rama.free_energy (Rama.np_sum counts) m cmax = 1e-6%R).
Proof.
  intros Hpop.
  destruct (energies_populated counts Hpop)
    as [m [HE [[cm [Hcm [Hcmnz Hcmeq]]] [Hle Hform]]]].
  set (T := Rama.np_sum counts) in *.
  assert (Hlt : forall c, In c (concat counts) -> c < T).
  { intros c Hc. unfold T. rewrite np_sum_concat. apply two_populated_lt; assumption. }
  assert (Hmono : forall c c', In c (concat counts) -> In c' (concat counts) ->
            0 < c <= c' -> (Rama.bin_energy T c' <= Rama.bin_energy T c)%R).
  { intros c c' Hc Hc' [H0 Hcc'].
    rewrite (Hform c Hc) by lia. rewrite (Hform c' Hc') by lia.
    destruct (Nat.eq_dec c c') as [->|Hne]; [lra|].
    assert (Hp : (0 < INR c / INR T < 1)%R)
      by (apply population_between; specialize (Hlt c Hc); lia).
    assert (Hp' : (INR c / INR T < INR c' / INR T)%R).
    { assert (HT : (0 < INR T)%R) by (apply lt_0_INR; specialize (Hlt c Hc); lia).
      assert (Hcc : (INR c < INR c')%R) by (apply lt_INR; lia).
      unfold Rdiv. apply Rmult_lt_compat_r; [apply Rinv_0_lt_compat; assumption|assumption]. }
    pose proof (ln_increasing _ _ (proj1 Hp) Hp'). lra. }
  assert (Hfe : forall c, In c (concat counts) -> c <> 0 ->
            Rama.free_energy T m c = (Rama.bin_energy T c - m + 1e-6)%R).
  { intros c Hc Hcnz. unfold Rama.free_energy.
    destruct (Nat.eqb_spec c 0) as [|_]; [contradiction|].
    rewrite <- (Hform c Hc Hcnz). reflexivity. }
  exists m. split; [exact HE|]. split.
  - intros c c' Hc Hc' Hcc'.
    rewrite (Hfe c Hc) by lia. rewrite (Hfe c' Hc') by lia.
    pose proof (Hmono c c' Hc Hc' Hcc'). lra.
  - intros cmax Hin Hmax.
    assert (Hmaxnz : cmax <> 0) by (specialize (Hmax cm Hcm); lia).
    rewrite (Hfe cmax Hin Hmaxnz).
    pose proof (Hle cmax Hin Hmaxnz) as H1.
    assert (H2 : (Rama.bin_energy T cmax <= m)%R).
    { rewrite <- Hcmeq. apply Hmono; [assumption|assumption|].
      specialize (Hmax cm Hcm). lia. }
    lra.
Qed.

(** Bins holding 1, 3 and 0 samples. *)
Lemma energies_follow_counts_witness :
  let counts : Rama.grid nat := [[1; 3; 0]] in
  exists m,
    Rama.energies counts
    = Some (map (map (Rama.free_energy (Rama.np_sum counts) m)) counts) /\
    (forall c c', In c (concat counts) -> In c' (concat counts) -> 0 < c <= c' ->
       (Rama.free_energy (Rama.np_sum counts) m c'
        <= Rama.free_energy (Rama.np_sum counts) m c)%R) /\
    (forall cmax, In cmax (concat counts) ->
       (forall c, In c (concat counts) -> c <= cmax) ->
       Rama.free_energy (Rama.np_sum counts) m cmax = 1e-6%R).
Proof.
  intros counts. apply (energies_follow_counts counts). vm_compute. lia.
Defined.

(** X10.  For every histogram with two or more populated bins the energies
    are computed; they are nonnegative, zero exactly on the empty bins, at
    least 1e-6 on the populated ones with 1e-6 attained, and the mask handed
    to the plot hides exactly the empty bins. *)
Theorem populated_histogram_energies (counts : Rama.grid nat) :
  2 <= Rama.populated counts ->
  exists E,
    Rama.energies counts = Some E /\
    Forall (Forall (fun x => (0 <= x)%R)) E /\
    Forall2 (Forall2 (fun c x => (c = 0 -> x = 0%R) /\ (c <> 0 -> (1e-6 <= x)%R)))
            counts E /\
    Rama.np_min (Rama.nonzero E) = Some 1e-6%R /\
    Rama.mask E = map (map (fun c => c =? 0)) counts.
Proof. apply energies_well_formed. Qed.

(** A histogram with one empty bin. *)
Lemma populated_histogram_energies_witness :
  let counts : Rama.grid nat := [[2; 0]; [1; 5]] in
  exists E,
    Rama.energies counts = Some E /\
    Forall (Forall (fun x => (0 <= x)%R)) E /\
    Forall2 (Forall2 (fun c x => (c = 0 -> x = 0%R) /\ (c <> 0 -> (1e-6 <= x)%R)))
            counts E /\
    Rama.np_min (Rama.nonzero E) = Some 1e-6%R /\
    Rama.mask E = map (map (fun c => c =? 0)) counts.
Proof.
  intros counts. apply (populated_histogram_energies counts). vm_compute. lia.
Defined.

(** ** The offset of the potentials *)

Section Offset.

Local Open Scope R_scope.

Lemma subtract_min_value (pot : list R) (m : R) :
  Rama.np_min pot = Some m ->
  Analysis.subtract_min pot = Some (map (fun x => x - m) pot) /\
  Forall (fun y => 0 <= y) (map (fun x => x - m) pot) /\
  Rama.np_min (map (fun x => x - m) pot) = Some 0.
Proof.
  intros Hm. destruct (np_min_spec pot Hm) as [Hin Hle].
  unfold Analysis.subtract_min. rewrite Hm. simpl bind_opt.
  split; [reflexivity|]. split.
  - apply Forall_map_in. intros x Hx. specialize (Hle x Hx). lra.
  - apply np_min_intro.
    + replace 0 with (m - m) by ring. apply (in_map (fun x => x - m)). assumption.
    + intros y Hy. apply in_map_iff in Hy. destruct Hy as [x [<- Hx]].
      specialize (Hle x Hx). lra.
Qed.

End Offset.

(** X11.  Subtracting the minimum of a nonempty array of potentials gives an
    array of the same length whose values are nonnegative and whose least
    value is exactly 0; doing it again changes nothing.  On an empty array,
    and only there, it raises. *)
Theorem subtract_min_spec (pot : list R) :
  (Analysis.subtract_min pot = None <-> pot = []) /\
  (pot <> [] ->
   exists shifted,
     Analysis.subtract_min pot = Some shifted /\
     length shifted = length pot /\
     Forall (fun y => (0 <= y)%R) shifted /\
     Rama.np_min shifted = Some 0%R /\
     Analysis.subtract_min shifted = Some shifted).
Proof.
  split.
  - unfold Analysis.subtract_min. destruct pot as [|x t]; simpl; split;
      (reflexivity || discriminate).
  - intros Hne.
    destruct (Rama.np_min pot) as [m|] eqn:Hm;
      [|apply np_min_empty in Hm; contradiction].
    destruct (subtract_min_value pot Hm) as [Hs [Hpos Hmin]].
    eexists. split; [exact Hs|]. split; [apply length_map|].
    split; [exact Hpos|]. split; [exact Hmin|].
    destruct (subtract_min_value _ Hmin) as [Hs' _]. rewrite Hs'. f_equal.
    rewrite <- (map_id (map (fun x => (x - m)%R) pot)) at 2.
    apply map_ext. intros y. apply Rminus_0_r.
Qed.

(** Three potentials. *)
Lemma subtract_min_spec_witness :
  exists shifted,
    Analysis.subtract_min [3; 1; 2]%R = Some shifted /\
    length shifted = 3 /\
    Forall (fun y => (0 <= y)%R) shifted /\
    Rama.np_min shifted = Some 0%R /\
    Analysis.subtract_min shifted = Some shifted.
Proof.
  apply (proj2 (subtract_min_spec [3; 1; 2]%R)). discriminate.
Defined.

(** ** Bookkeeping and failure of the training loop *)

Section TrainingBookkeeping.

Context {L : Train.Library}.

Variable strength : Q.

Lemma train_batch_counts (verbose : bool) (v : Train.locals) (it : nat * Train.Batch) :
  let v' := Train.train_batch strength verbose v it in
  Train.n v' = Train.n v + 1 /\
  length (Train.train_loss v') = length (Train.train_loss v) + 1 /\
  Train.epochal_train_losses (Train.st v') = Train.epochal_train_losses (Train.st v) /\
  (verbose = false -> Train.stdout (Train.st v') = Train.stdout (Train.st v)).
Proof.
  destruct it as [num [[coord force] emb]]. unfold Train.train_batch.
  destruct (Train.forward (Train.net (Train.st v)) coord emb) as [energy pred_force].
  destruct (Train.optimizer_step _ _ _) as [o' m']. simpl.
  split; [reflexivity|]. split; [rewrite length_app; reflexivity|].
  split; [reflexivity|]. intros ->. reflexivity.
Qed.

Lemma train_loop_counts (verbose : bool) (items : list (nat * Train.Batch)) : forall v,
  let v' := fold_left (Train.train_batch strength verbose) items v in
  Train.n v' = Train.n v + length items /\
  length (Train.train_loss v') = length (Train.train_loss v) + length items /\
  Train.epochal_train_losses (Train.st v') = Train.epochal_train_losses (Train.st v) /\
  (verbose = false -> Train.stdout (Train.st v') = Train.stdout (Train.st v)).
Proof.
  induction items as [|it rest IH]; intros v; cbv zeta in *; cbn [fold_left length].
  - repeat split; lia.
  - destruct (train_batch_counts verbose v it) as [Hn [Hl [He Ho]]].
    destruct (IH (Train.train_batch strength verbose v it)) as [Hn' [Hl' [He' Ho']]].
    repeat split; [lia|lia|congruence|].
    intros Hq. rewrite (Ho' Hq). apply Ho. exact Hq.
Qed.

Lemma train_batches_counts (verbose : bool) (s : Train.state) (batches : list Train.Batch) :
  let v := Train.train_batches strength verbose s batches in
  Train.n v = length batches /\
  length (Train.train_loss v) = length batches /\
  Train.epochal_train_losses (Train.st v) = Train.epochal_train_losses s /\
  (verbose = false -> Train.stdout (Train.st v) = Train.stdout s).
Proof.
  cbv zeta. unfold Train.train_batches.
  destruct (train_loop_counts verbose (Dataset.enumerate batches)
              {| Train.st := s; Train.train_loss := []; Train.n := 0 |})
    as [Hn [Hl [He Ho]]].
  rewrite enumerate_length in *. simpl in *. repeat split; assumption.
Qed.

Lemma train_epoch_none_iff (verbose : bool) (trainloader : nat -> list Train.Batch)
    (s : Train.state) (epoch : nat) :
  Train.train_epoch strength verbose trainloader s epoch = None <-> trainloader epoch = [].
Proof.
  unfold Train.train_epoch.
  destruct (train_batches_counts verbose s (trainloader epoch)) as [Hn _].
  rewrite Hn. destruct (trainloader epoch) as [|b t]; simpl; split;
    (reflexivity || discriminate).
Qed.

Lemma train_epochs_none_iff (verbose : bool) (trainloader : nat -> list Train.Batch)
    (epochs : list nat) : forall s,
  Dataset.for_each (Train.train_epoch strength verbose trainloader) epochs s = None
  <-> exists epoch, In epoch epochs /\ trainloader epoch = [].
Proof.
  induction epochs as [|e rest IH]; intros s; cbn [Dataset.for_each].
  - split; [discriminate|]. intros [epoch [[] _]].
  - destruct (Train.train_epoch strength verbose trainloader s e) as [s1|] eqn:Hs1.
    + rewrite IH. split.
      * intros [epoch [Hin He]]. exists epoch. split; [right; assumption|assumption].
      * intros [epoch [[<-|Hin] He]].
        -- apply (proj2 (train_epoch_none_iff verbose trainloader s e)) in He.
           rewrite He in Hs1. discriminate.
        -- exists epoch. split; assumption.
    + split; [intros _|reflexivity].
      exists e. split; [left; reflexivity|].
      apply (train_epoch_none_iff verbose trainloader s e). exact Hs1.
Qed.

(** One epoch appends one entry: the losses of its batches and their number. *)
Lemma train_epoch_entry (verbose : bool) (trainloader : nat -> list Train.Batch)
    (s s' : Train.state) (epoch : nat) :
  Train.train_epoch strength verbose trainloader s epoch = Some s' ->
  exists losses,
    Train.epochal_train_losses s'
    = Train.epochal_train_losses s ++ [(losses, length (trainloader epoch))] /\
    length losses = length (trainloader epoch).
Proof.
  unfold Train.train_epoch.
  destruct (train_batches_counts verbose s (trainloader epoch)) as [Hn [Hl [He _]]].
  destruct (Train.n _ =? 0); [discriminate|].
  intros Hs'. injection Hs' as <-. simpl.
  exists (Train.train_loss (Train.train_batches strength verbose s (trainloader epoch))).
  rewrite He, Hn. split; [reflexivity|exact Hl].
Qed.

Lemma train_epochs_entries (verbose : bool) (trainloader : nat -> list Train.Batch)
    (epochs : list nat) : forall s s',
  Dataset.for_each (Train.train_epoch strength verbose trainloader) epochs s = Some s' ->
  exists entries,
    Train.epochal_train_losses s' = Train.epochal_train_losses s ++ entries /\
    Forall2 (fun epoch entry =>
               length (fst entry) = length (trainloader epoch) /\
               snd entry = length (trainloader epoch)) epochs entries.
Proof.
  induction epochs as [|e rest IH]; intros s s' Hs'; cbn [Dataset.for_each] in Hs'.
  - injection Hs' as <-. exists []. split; [rewrite app_nil_r; reflexivity|constructor].
  - destruct (Train.train_epoch strength verbose trainloader s e) as [s1|] eqn:Hs1;
      [|discriminate].
    destruct (train_epoch_entry _ _ _ _ Hs1) as [losses [He Hl]].
    destruct (IH _ _ Hs') as [entries [Hes Hall]].
    exists ((losses, length (trainloader e)) :: entries). split.
    + rewrite Hes, He, <- app_assoc. reflexivity.
    + constructor; [split; [exact Hl|reflexivity]|exact Hall].
Qed.

(** Printing does not reach the model. *)
Lemma train_batch_quiet (v1 v2 : Train.locals) (it : nat * Train.Batch) :
  quiet (Train.st v1) = quiet (Train.st v2) ->
  Train.train_loss v1 = Train.train_loss v2 -> Train.n v1 = Train.n v2 ->
  let w1 := Train.train_batch strength true v1 it in
  let w2 := Train.train_batch strength false v2 it in
  quiet (Train.st w1) = quiet (Train.st w2) /\
  Train.train_loss w1 = Train.train_loss w2 /\ Train.n w1 = Train.n w2.
Proof.
  unfold quiet. intros Hq Hl Hn. injection Hq as Hnet Hopt Hg He.
  destruct it as [num [[coord force] emb]]. unfold Train.train_batch.
  rewrite Hnet, Hopt, Hl, Hn, He.
  destruct (Train.forward (Train.net (Train.st v2)) coord emb) as [energy pred_force].
  destruct (Train.optimizer_step _ _ _) as [o' m']. simpl.
  repeat split.
Qed.

Lemma train_loop_quiet (items : list (nat * Train.Batch)) : forall v1 v2,
  quiet (Train.st v1) = quiet (Train.st v2) ->
  Train.train_loss v1 = Train.train_loss v2 -> Train.n v1 = Train.n v2 ->
  let w1 := fold_left (Train.train_batch strength true) items v1 in
  let w2 := fold_left (Train.train_batch strength false) items v2 in
  quiet (Train.st w1) = quiet (Train.st w2) /\
  Train.train_loss w1 = Train.train_loss w2 /\ Train.n w1 = Train.n w2.
Proof.
  induction items as [|it rest IH]; intros v1 v2 Hq Hl Hn; cbv zeta in *; cbn [fold_left].
  - repeat split; assumption.
  - destruct (train_batch_quiet v1 v2 it Hq Hl Hn) as [Hq' [Hl' Hn']].
    apply IH; assumption.
Qed.

Lemma train_epoch_quiet (trainloader : nat -> list Train.Batch)
    (s1 s2 : Train.state) (epoch : nat) :
  quiet s1 = quiet s2 ->
  match Train.train_epoch strength true trainloader s1 epoch,
        Train.train_epoch strength false trainloader s2 epoch with
  | Some t1, Some t2 => quiet t1 = quiet t2
  | None, None => True
  | _, _ => False
  end.
Proof.
  intros Hq. unfold Train.train_epoch, Train.train_batches.
  destruct (train_loop_quiet (Dataset.enumerate (trainloader epoch))
              {| Train.st := s1; Train.train_loss := []; Train.n := 0 |}
              {| Train.st := s2; Train.train_loss := []; Train.n := 0 |}
              Hq eq_refl eq_refl) as [Hq' [Hl' Hn']].
  rewrite Hn'. destruct (Train.n _ =? 0); [exact I|].
  unfold quiet in *. simpl. injection Hq' as Hnet Hopt Hg He.
  rewrite Hnet, Hopt, Hg, He, Hl'. reflexivity.
Qed.

Lemma train_epochs_quiet (trainloader : nat -> list Train.Batch) (epochs : list nat) :
  forall s1 s2,
  quiet s1 = quiet s2 ->
  option_map quiet
    (Dataset.for_each (Train.train_epoch strength true trainloader) epochs s1)
  = option_map quiet
      (Dataset.for_each (Train.train_epoch strength false trainloader) epochs s2).
Proof.
  induction epochs as [|e rest IH]; intros s1 s2 Hq; cbn [Dataset.for_each].
  - simpl. f_equal. exact Hq.
  - pose proof (@train_epoch_quiet trainloader s1 s2 e Hq) as He.
    destruct (Train.train_epoch strength true trainloader s1 e) as [t1|];
      destruct (Train.train_epoch strength false trainloader s2 e) as [t2|];
      try contradiction; [apply IH; exact He|reflexivity].
Qed.

Lemma train_epochs_silent (trainloader : nat -> list Train.Batch) (epochs : list nat) :
  forall s,
  option_map Train.stdout
    (Dataset.for_each (Train.train_epoch strength false trainloader) epochs s)
  = option_map (fun _ => Train.stdout s)
      (Dataset.for_each (Train.train_epoch strength false trainloader) epochs s).
Proof.
  induction epochs as [|e rest IH]; intros s; cbn [Dataset.for_each]; [reflexivity|].
  destruct (Train.train_epoch strength false trainloader s e) as [s1|] eqn:Hs1;
    [|reflexivity].
  rewrite IH.
  assert (Hout : Train.stdout s1 = Train.stdout s).
  { unfold Train.train_epoch in Hs1.
    destruct (train_batches_counts false s (trainloader e)) as [_ [_ [_ Ho]]].
    destruct (Train.n _ =? 0); [discriminate|].
    injection Hs1 as <-. simpl. apply Ho. reflexivity. }
  rewrite Hout. reflexivity.
Qed.

End TrainingBookkeeping.

(** X12.  The training loop raises exactly when the loader yields no batch
    in one of the epochs 1 .. [epochs]: the division of the summed loss by the
    number of batches is then a division by zero. *)
Theorem train_raises_iff {L : Train.Library} (strength : Q) (verbose : bool)
    (epochs : nat) (trainloader : nat -> list Train.Batch) (s : Train.state) :
  Train.train strength verbose epochs trainloader s = None
  <-> exists epoch, 1 <= epoch <= epochs /\ trainloader epoch = [].
Proof.
  unfold Train.train. rewrite train_epochs_none_iff.
  split; intros [epoch [Hin He]]; exists epoch; (split; [|exact He]).
  - apply in_seq in Hin. lia.
  - apply in_seq. lia.
Qed.

(** X13.  A run of the loop that ends adds one entry per epoch to
    [epochal_train_losses], in the order of the epochs; the entry of an epoch
    holds one loss per batch of that epoch and divides by the number of
    batches, whatever their sizes. *)
Theorem epochal_losses_per_epoch {L : Train.Library} (strength : Q) (verbose : bool)
    (epochs : nat) (trainloader : nat -> list Train.Batch) (s : Train.state) :
  (forall epoch, 1 <= epoch <= epochs -> trainloader epoch <> []) ->
  exists s' entries,
    Train.train strength verbose epochs trainloader s = Some s' /\
    Train.epochal_train_losses s' = Train.epochal_train_losses s ++ entries /\
    Forall2 (fun epoch entry =>
               length (fst entry) = length (trainloader epoch) /\
               snd entry = length (trainloader epoch)) (seq 1 epochs) entries.
Proof.
  intros Hne.
  destruct (Train.train strength verbose epochs trainloader s) as [s'|] eqn:Hs'.
  - unfold Train.train in Hs'.
    destruct (train_epochs_entries _ _ _ _ _ Hs') as [entries [He Hall]].
    exists s', entries. repeat split; assumption.
  - exfalso. unfold Train.train in Hs'. apply train_epochs_none_iff in Hs'.
    destruct Hs' as [epoch [Hin He]]. apply in_seq in Hin.
    apply (Hne epoch); [lia|exact He].
Qed.

(** The one-weight model, three epochs of two batches. *)
Lemma epochal_losses_per_epoch_witness :
  exists s' entries,
    Train.train (L := Toy.library) (4 # 1) true 3 Toy.loader
                (Train.initial_state (L := Toy.library) 1%Z 1%Z) = Some s' /\
    Train.epochal_train_losses s'
    = Train.epochal_train_losses (Train.initial_state (L := Toy.library) 1%Z 1%Z)
      ++ entries /\
    Forall2 (fun epoch entry =>
               length (fst entry) = length (Toy.loader epoch) /\
               snd entry = length (Toy.loader epoch)) (seq 1 3) entries.
Proof.
  apply (epochal_losses_per_epoch (L := Toy.library)).
  intros epoch _. unfold Toy.loader. discriminate.
Defined.

(** X14.  The printout settings do not reach the training: with and without
    [verbose] the loop fails on the same inputs and otherwise ends with the
    same model, optimizer, gradients and recorded losses; without [verbose]
    nothing is printed. *)
Theorem verbose_only_prints {L : Train.Library} (strength : Q)
    (epochs : nat) (trainloader : nat -> list Train.Batch) (s : Train.state) :
  option_map quiet (Train.train strength true epochs trainloader s)
  = option_map quiet (Train.train strength false epochs trainloader s) /\
  option_map Train.stdout (Train.train strength false epochs trainloader s)
  = option_map (fun _ => Train.stdout s) (Train.train strength false epochs trainloader s).
Proof.
  unfold Train.train. split.
  - apply train_epochs_quiet. reflexivity.
  - apply train_epochs_silent.
Qed.

(** ** Counting the calls of the authored training loop *)

Section TrainingCounts.

Import Pipeline.

Variable r : run.
Variable f : call -> nat.

Hypothesis batch_one : forall num, list_sum (map f (emb_batch_calls r num)) = 1.
Hypothesis end_zero : forall epoch, list_sum (map f (emb_epoch_end r epoch)) = 0.
Hypothesis save_zero : forall path, f (call_torch_save path) = 0.

Lemma count_batches (k : nat) : forall start,
  list_sum (map f (flat_map (emb_batch_calls r) (seq start k))) = k.
Proof.
  induction k as [|k IH]; intros start; [reflexivity|].
  cbn [seq flat_map]. rewrite map_app, list_sum_app, batch_one, IH. reflexivity.
Qed.

Lemma count_epochs (epochs : list nat) :
  list_sum (map f (fst (emb_epochs r epochs))) = length epochs * n_batches r.
Proof.
  induction epochs as [|epoch rest IH]; [reflexivity|].
  cbn [emb_epochs length].
  destruct (Nat.eqb_spec (n_batches r) 0) as [H0|_].
  - cbn [fst]. unfold emb_epoch_batches. rewrite count_batches. lia.
  - destruct (emb_epochs r rest) as [cs e]. cbn [fst] in *.
    rewrite !map_app, !list_sum_app, end_zero, IH.
    unfold emb_epoch_batches. rewrite count_batches. lia.
Qed.

Lemma count_train :
  list_sum (map f (trace (emb_train r))) = num_epochs r * n_batches r.
Proof.
  unfold emb_train.
  pose proof (count_epochs (seq 1 (num_epochs r))) as Hcs.
  rewrite length_seq in Hcs.
  destruct (emb_epochs r (seq 1 (num_epochs r))) as [cs e]. cbn [fst] in Hcs.
  destruct e; unfold trace; cbn [segs raise ok flat_map snd]; rewrite app_nil_r;
    [exact Hcs|].
  rewrite map_app, list_sum_app, Hcs.
  destruct (save_model r); cbn; rewrite ?save_zero; lia.
Qed.

End TrainingCounts.

(** X15.  On every run the training cell of the embeddings notebook takes
    one optimizer step and one projection of strength [lipschitz_strength]
    per batch and epoch: [num_epochs * ceil(n_frames / 512)] of each. *)
Theorem one_projection_per_step (r : Pipeline.run) :
  authored_steps (Pipeline.trace (Pipeline.emb_train r))
  = Pipeline.num_epochs r * Sim.ceil_div (Pipeline.n_frames r) 512 /\
  Pipeline.projections (Pipeline.lipschitz_strength r)
    (Pipeline.trace (Pipeline.emb_train r))
  = Pipeline.num_epochs r * Sim.ceil_div (Pipeline.n_frames r) 512.
Proof.
  split.
  - unfold authored_steps. apply (@count_train r).
    + intros num. unfold Pipeline.emb_batch_calls.
      destruct (Pipeline.verbose r && _); reflexivity.
    + intros epoch. unfold Pipeline.emb_epoch_end.
      destruct (Pipeline.verbose r && _); reflexivity.
    + reflexivity.
  - unfold Pipeline.projections. apply (@count_train r).
    + intros num. unfold Pipeline.emb_batch_calls.
      destruct (Pipeline.verbose r && _); cbn; rewrite Qeq_bool_refl; reflexivity.
    + intros epoch. unfold Pipeline.emb_epoch_end.
      destruct (Pipeline.verbose r && _); reflexivity.
    + reflexivity.
Qed.

(** ** Runs that fail *)

Section FailingRuns.

Import Pipeline.

Variable r : run.









End FailingRuns.


Section StoppedRuns.

Import Pipeline.

Variable r : run.

Hypothesis has_frames : 1 <= n_frames r.
Hypothesis bad_n_sims : n_sims r = 0 \/ n_frames r < n_sims r.




End StoppedRuns.


